(** * simple-service-doc-converter: a shallow embedding of the request pipeline

    The development follows the TypeScript sources:
    - [src/common/filename.ts]   : [sanitizeFilename], [buildContentDispositionAttachment]
    - [src/common/withTimeout.ts]: [withTimeout]
    - [src/common/class/FileTemp.ts], [src/common/withTemp.ts]: the temporary workspace
    - [src/lib/convert.ts]       : [convertFile]
    - [src/server.ts]            : the [fetch] handler of the [/process] endpoint

    JavaScript strings are sequences of UTF-16 code units; asynchronous code is
    written in a state-and-exception monad over a [world] that carries a clock,
    the set of live workspace directories and the trace of effects. *)

From Stdlib Require Import String Ascii DecimalString ZArith NArith List Bool Lia.
Import ListNotations.

Set Implicit Arguments.
Local Open Scope list_scope.
Local Open Scope N_scope.

(* ================================================================== *)
(** * JavaScript strings *)
(* ================================================================== *)

(** A JS string is a list of UTF-16 code units. *)
Definition code_unit := N.
Definition jsstring := list code_unit.

(** An ASCII literal as a JS string. *)
Definition js (s : string) : jsstring :=
  map N_of_ascii (list_ascii_of_string s).

Definition jsstring_eqb (a b : jsstring) : bool :=
  if list_eq_dec N.eq_dec a b then true else false.

(** [!s] on a string: only the empty string is falsy. *)
Definition falsy (s : jsstring) : bool :=
  match s with [] => true | _ => false end.

Fixpoint starts_with (p s : jsstring) : bool :=
  match p, s with
  | [], _ => true
  | a :: p', b :: s' => N.eqb a b && starts_with p' s'
  | _ :: _, [] => false
  end.

(** [s.includes(p)] *)
Fixpoint includes (s p : jsstring) : bool :=
  starts_with p s ||
  match s with
  | [] => false
  | _ :: s' => includes s' p
  end.

Definition ends_with (s suf : jsstring) : bool :=
  starts_with (rev suf) (rev s).

(** White space and line terminators of ECMAScript, as removed by [trim]. *)
Definition is_js_whitespace (c : code_unit) : bool :=
  ((9 <=? c) && (c <=? 13)) || (c =? 32) || (c =? 160) || (c =? 5760) ||
  ((8192 <=? c) && (c <=? 8202)) || (c =? 8232) || (c =? 8233) ||
  (c =? 8239) || (c =? 8287) || (c =? 12288) || (c =? 65279).

Fixpoint trimStart (s : jsstring) : jsstring :=
  match s with
  | [] => []
  | c :: r => if is_js_whitespace c then trimStart r else s
  end.

Definition trim (s : jsstring) : jsstring :=
  rev (trimStart (rev (trimStart s))).

Definition ch_quote : code_unit := 34.
Definition ch_slash : code_unit := 47.
Definition ch_dot : code_unit := 46.
Definition ch_underscore : code_unit := 95.
Definition ch_percent : code_unit := 37.

(* ------------------------------------------------------------------ *)
(** ** [encodeURIComponent] *)

(** The characters left alone: ASCII letters and digits and [-_.!~*'()]. *)
Definition uri_unreserved (c : code_unit) : bool :=
  ((65 <=? c) && (c <=? 90)) || ((97 <=? c) && (c <=? 122)) ||
  ((48 <=? c) && (c <=? 57)) ||
  existsb (N.eqb c) [45; 95; 46; 33; 126; 42; 39; 40; 41].

Definition is_high_surrogate (c : code_unit) : bool :=
  (55296 <=? c) && (c <=? 56319).
Definition is_low_surrogate (c : code_unit) : bool :=
  (56320 <=? c) && (c <=? 57343).

Definition hex_digit (n : N) : code_unit :=
  if n <? 10 then 48 + n else 55 + n.

Definition pct_octet (b : N) : jsstring :=
  [ch_percent; hex_digit (b / 16); hex_digit (b mod 16)].

Definition utf8_octets (cp : N) : list N :=
  if cp <? 128 then [cp]
  else if cp <? 2048 then [192 + cp / 64; 128 + cp mod 64]
  else if cp <? 65536 then
    [224 + cp / 4096; 128 + (cp / 64) mod 64; 128 + cp mod 64]
  else
    [240 + cp / 262144; 128 + (cp / 4096) mod 64;
     128 + (cp / 64) mod 64; 128 + cp mod 64].

Definition pct_encode (cp : N) : jsstring :=
  flat_map pct_octet (utf8_octets cp).

Definition surrogate_pair (hi lo : code_unit) : N :=
  65536 + (hi - 55296) * 1024 + (lo - 56320).

(** [None] stands for the [URIError] raised on an unpaired surrogate. *)
Fixpoint encodeURIComponent (s : jsstring) : option jsstring :=
  match s with
  | [] => Some []
  | c :: r =>
    if uri_unreserved c then option_map (cons c) (encodeURIComponent r)
    else if is_low_surrogate c then None
    else if is_high_surrogate c then
      match r with
      | d :: r' =>
        if is_low_surrogate d
        then option_map (app (pct_encode (surrogate_pair c d)))
                        (encodeURIComponent r')
        else None
      | [] => None
      end
    else option_map (app (pct_encode c)) (encodeURIComponent r)
  end.

(* ================================================================== *)
(** * src/common/filename.ts *)
(* ================================================================== *)

(** [basename] and [extname] of the runtime's [path] module (POSIX flavour),
    which [filename.ts] imports: the last segment of a path with trailing
    separators dropped, a given suffix removed from its end, and the
    extension from the last dot of that segment. *)
Fixpoint drop_trailing_slashes_rev (r : jsstring) : jsstring :=
  match r with
  | c :: r' => if c =? ch_slash then drop_trailing_slashes_rev r' else r
  | [] => []
  end.

Fixpoint take_segment_rev (r : jsstring) : jsstring :=
  match r with
  | c :: r' => if c =? ch_slash then [] else c :: take_segment_rev r'
  | [] => []
  end.

Definition last_segment (p : jsstring) : jsstring :=
  rev (take_segment_rev (drop_trailing_slashes_rev (rev p))).

Definition path_basename (p : jsstring) (suffix : option jsstring) : jsstring :=
  let b := last_segment p in
  match suffix with
  | None => b
  | Some suf =>
    if falsy suf then b
    else if jsstring_eqb suf p then []
    else if ends_with b suf && (length suf <? length b)%nat
         then firstn (length b - length suf)%nat b
         else b
  end.

Fixpoint ext_rev (r acc : jsstring) : option jsstring :=
  match r with
  | [] => None
  | c :: r' =>
    if c =? ch_dot
    then match r' with [] => None | _ => Some (c :: acc) end
    else ext_rev r' (c :: acc)
  end.

Definition path_extname (p : jsstring) : jsstring :=
  let b := last_segment p in
  if jsstring_eqb b [ch_dot; ch_dot] then []
  else match ext_rev (rev b) [] with Some e => e | None => [] end.

Section Filename.

(** The two [path] functions the module imports. *)
Variable basename : jsstring -> option jsstring -> jsstring.
Variable extname : jsstring -> jsstring.

(** The characters [sanitizeFilename] lists as problematic. *)
Definition problematic_chars : list code_unit :=
  [34; 92; 47; 60; 62; 124; 58; 42; 63].

Definition is_control (c : code_unit) : bool := c <=? 31.
Definition is_problematic (c : code_unit) : bool :=
  existsb (N.eqb c) problematic_chars.

(** One iteration of the loop of [sanitizeFilename]. *)
Definition sanitize_char (c : code_unit) : code_unit :=
  if is_control c then ch_underscore
  else if is_problematic c then ch_underscore
  else c.

Definition sanitizeFilename (name : jsstring) (maxLength : nat) : jsstring :=
  if falsy name then js "file"
  else
    let b := basename name None in
    let b := map sanitize_char b in
    let b := trim b in
    let b := if (maxLength <? length b)%nat then firstn maxLength b else b in
    if falsy b then js "file" else b.

(** [ext.startsWith('.') ? ext.slice(1) : ext] *)
Definition clean_ext (ext : jsstring) : jsstring :=
  if starts_with [ch_dot] ext then tl ext else ext.

(** The [filename] constant of [buildContentDispositionAttachment]. *)
Definition attachment_filename (originalName ext : jsstring)
           (maxBaseLength : nat) : jsstring :=
  let cleanExt := clean_ext ext in
  let suffix :=
    let e := extname originalName in
    if falsy e then ch_dot :: cleanExt else e in
  let base := basename originalName (Some suffix) in
  let safeBase := sanitizeFilename base maxBaseLength in
  if falsy cleanExt then safeBase else safeBase ++ ch_dot :: cleanExt.

Definition disposition_header (filename filenameStar : jsstring) : jsstring :=
  js "attachment; filename=" ++ ch_quote :: filename ++
  ch_quote :: js "; filename*=UTF-8''" ++ filenameStar.

(** [None] when [encodeURIComponent] throws. *)
Definition buildContentDispositionAttachment
           (originalName ext : jsstring) (maxBaseLength : nat)
  : option jsstring :=
  let filename := attachment_filename originalName ext maxBaseLength in
  match encodeURIComponent filename with
  | Some filenameStar => Some (disposition_header filename filenameStar)
  | None => None
  end.

End Filename.

(** The default of the [maxLength] and [maxBaseLength] parameters. *)
Definition default_max_length : nat := 100.

Definition contentDisposition (originalName ext : jsstring) : option jsstring :=
  buildContentDispositionAttachment path_basename path_extname
    originalName ext default_max_length.

(* ================================================================== *)
(** * Effects: errors, the world and the monad of asynchronous code *)
(* ================================================================== *)

Local Open Scope Z_scope.

(** The diagnostic properties [convertFile] attaches to the errors it throws. *)
Record diagnostics := mkDiag {
  diag_stderr : jsstring;
  diag_stdout : jsstring;
  diag_code : option Z;
  diag_signal : option jsstring
}.

(** A thrown [Error]: its message, the attached diagnostics and the message
    of its [cause], when present. *)
Record js_error := mkError {
  err_message : jsstring;
  err_diag : option diagnostics;
  err_cause : option jsstring
}.

Definition Error (msg : jsstring) : js_error := mkError msg None None.

(** What an [await] yields. *)
Inductive outcome (A : Type) : Type :=
| Ok (v : A)
| Throw (e : js_error).
Arguments Ok {A} v.
Arguments Throw {A} e.

(** An [AbortSignal]: the instant at which it is (or was) aborted, if ever. *)
Record AbortSignal := mkSignal { abort_at : option Z }.


Definition earliest (a b : option Z) : option Z :=
  match a, b with
  | Some x, Some y => Some (Z.min x y)
  | Some x, None => Some x
  | None, y => y
  end.

(** Effects visible from outside the process, in the order they happen. *)
Inductive event : Type :=
| EvMkdtemp (dir : jsstring)
| EvRm (dir : jsstring)
| EvWriteInput (path : jsstring)
| EvStageUpload (path : jsstring)
| EvFetchGet (url : jsstring)
| EvStageDownload (path : jsstring)
| EvAcquire
| EvRelease
| EvSpawn (args : list jsstring)
| EvKill (sig : jsstring)
| EvChildClose (code : option Z) (sig : option jsstring)
| EvAccess (path : jsstring)
| EvReadFile (path : jsstring)
| EvPut (url : jsstring) (contentType disposition : jsstring)
| EvOpenOutput (path : jsstring).

Section Effects.

(** The variables of the enclosing closure that callbacks assign to. *)
Variable Locals : Type.

Record world := mkWorld {
  now : Z;                       (* milliseconds *)
  live_dirs : list jsstring;     (* workspace directories on disk *)
  trace : list event;
  locals : Locals
}.

Definition M (A : Type) : Type := world -> outcome A * world.

Definition ret {A} (v : A) : M A := fun w => (Ok v, w).
Definition throw {A} (e : js_error) : M A := fun w => (Throw e, w).

Definition bind {A B} (m : M A) (k : A -> M B) : M B :=
  fun w => match m w with
           | (Ok v, w') => k v w'
           | (Throw e, w') => (Throw e, w')
           end.

(** [try { m } catch (err) { h err }] *)
Definition try_catch {A} (m : M A) (h : js_error -> M A) : M A :=
  fun w => match m w with
           | (Ok v, w') => (Ok v, w')
           | (Throw e, w') => h e w'
           end.

(** [try { m } finally { f }] *)
Definition try_finally {A} (m : M A) (f : M unit) : M A :=
  fun w => match m w with
           | (r, w') =>
             match f w' with
             | (Ok _, w'') => (r, w'')
             | (Throw e, w'') => (Throw e, w'')
             end
           end.

(** [try { m } catch (_) {}] *)
Definition swallow (m : M unit) : M unit :=
  try_catch m (fun _ => ret tt).

Definition emit (e : event) : M unit :=
  fun w => (Ok tt, mkWorld (now w) (live_dirs w) (trace w ++ [e]) (locals w)).

(** Time passing while a promise is pending. *)
Definition sleep (d : Z) : M unit :=
  fun w => (Ok tt, mkWorld (now w + Z.max 0 d) (live_dirs w) (trace w) (locals w)).

Definition sleep_until (t : Z) : M unit :=
  fun w => (Ok tt, mkWorld (Z.max (now w) t) (live_dirs w) (trace w) (locals w)).

Definition clock : M Z := fun w => (Ok (now w), w).

Definition get_locals : M Locals := fun w => (Ok (locals w), w).
Definition set_locals (f : Locals -> Locals) : M unit :=
  fun w => (Ok tt, mkWorld (now w) (live_dirs w) (trace w) (f (locals w))).

Definition add_dir (d : jsstring) : M unit :=
  fun w => (Ok tt, mkWorld (now w) (d :: live_dirs w) (trace w) (locals w)).

Definition remove_dir (d : jsstring) : M unit :=
  fun w => (Ok tt, mkWorld (now w)
              (filter (fun x => negb (jsstring_eqb x d)) (live_dirs w))
              (trace w) (locals w)).

End Effects.

Arguments ret {Locals A} v _.
Arguments throw {Locals A} e _.
Arguments emit {Locals} e _.
Arguments sleep {Locals} d _.
Arguments sleep_until {Locals} t _.
Arguments clock {Locals} _.
Arguments get_locals {Locals} _.
Arguments add_dir {Locals} d _.
Arguments remove_dir {Locals} d _.

Declare Scope js_scope.
Delimit Scope js_scope with jsm.
Notation "x <- m ;; k" := (bind m (fun x => k))
  (at level 100, m at next level, right associativity) : js_scope.
Notation "m ;;; k" := (bind m (fun _ => k))
  (at level 100, right associativity) : js_scope.
Local Open Scope js_scope.

(* ================================================================== *)
(** * src/common/withTimeout.ts *)
(* ================================================================== *)

Definition timeout_message : jsstring := js "Operation timed out".

(** How a deadline scope ends: the value of [fn], the [Error] made by the
    [catch] block when [timedOut] is set, or the error of [fn] thrown again. *)
Inductive scope_result (A : Type) : Type :=
| Returned (v : A)
| TimedOut
| Rethrown (e : js_error).
Arguments Returned {A} v.
Arguments TimedOut {A}.
Arguments Rethrown {A} e.

Definition outcome_of_scope {A} (r : scope_result A) : outcome A :=
  match r with
  | Returned v => Ok v
  | TimedOut => Throw (Error timeout_message)
  | Rethrown e => Throw e
  end.

Section WithTimeout.

Variable Locals : Type.
Variable A : Type.

(** [typeof ms === 'number' && ms > 0]: the instant the timer fires. *)
Definition timer_deadline (ms : option Z) (start : Z) : option Z :=
  match ms with
  | Some m => if 0 <? m then Some (start + m) else None
  | None => None
  end.

(** The controller's signal: aborted by the parent (at once when the parent
    is already aborted, through the listener otherwise) or by the timer. *)
Definition controller_signal (ms : option Z) (parentSignal : option AbortSignal)
           (start : Z) : AbortSignal :=
  mkSignal (earliest
              (match parentSignal with Some p => abort_at p | None => None end)
              (timer_deadline ms start)).

(** The [timedOut] flag as read by the [catch] block at instant [t]. *)
Definition timedOut_at (ms : option Z) (start t : Z) : bool :=
  match timer_deadline ms start with
  | Some d => d <=? t
  | None => false
  end.

Definition withTimeout_scope (fn : AbortSignal -> M Locals A) (ms : option Z)
           (parentSignal : option AbortSignal)
  : world Locals -> scope_result A * world Locals :=
  fun w =>
    let start := now w in
    match fn (controller_signal ms parentSignal start) w with
    | (Ok v, w') => (Returned v, w')
    | (Throw err, w') =>
      if timedOut_at ms start (now w') then (TimedOut, w')
      else (Rethrown err, w')
    end.

Definition withTimeout (fn : AbortSignal -> M Locals A) (ms : option Z)
           (parentSignal : option AbortSignal) : M Locals A :=
  fun w =>
    let (r, w') := withTimeout_scope fn ms parentSignal w in
    (outcome_of_scope r, w').

End WithTimeout.

(** An operation that takes [d] milliseconds and honours a signal: when the
    signal aborts first the operation rejects with an [AbortError]. *)
Definition abort_error : js_error := Error (js "The operation was aborted.").

Definition abortable {Locals A} (signal : option AbortSignal) (d : Z)
           (r : outcome A) : M Locals A :=
  fun w =>
    let finish := now w + Z.max 0 d in
    match match signal with Some s => abort_at s | None => None end with
    | Some a =>
      if a <? finish
      then (sleep_until a ;;; throw abort_error) w
      else (sleep d ;;; fun w' => (r, w')) w
    | None => (sleep d ;;; fun w' => (r, w')) w
    end.

(* ================================================================== *)
(** * src/common/class/FileTemp.ts and src/common/withTemp.ts *)
(* ================================================================== *)

(** A workspace after [ready()]: [tempDir] is the directory [mkdtemp] made. *)
Record FileTemp := mkTemp {
  tempDir : jsstring;
  fast : bool
}.

(** What the file system answers to one [FileTemp]. *)
Record temp_env := mkTempEnv {
  FAST_TMP_DIR : option jsstring;      (* process.env.FAST_TMP_DIR *)
  candidate_accessible : bool;         (* access(candidate) *)
  os_tmpdir : jsstring;                (* os.tmpdir() *)
  (* the random characters the first mkdtemp appends; None when it throws *)
  mkdtemp_first : option jsstring;
  mkdtemp_fallback : outcome jsstring; (* the same for mkdtemp under os.tmpdir() *)
  rm_succeeds : bool
}.

Definition default_prefix : jsstring := js "doc-conv-".

(** [join(dir, prefix)] *)
Definition join (dir name : jsstring) : jsstring := dir ++ ch_slash :: name.

(** [join(base, 'file')] *)
Definition filePath (t : FileTemp) : jsstring := join (tempDir t) (js "file").

Section Workspace.

Variable Locals : Type.
Variable T : temp_env.

Local Abbreviation M := (M Locals).

Definition candidate : jsstring :=
  match FAST_TMP_DIR T with
  | Some s => if falsy s then js "/dev/shm" else s
  | None => js "/dev/shm"
  end.

(** [chooseBaseDir]: the directory and the [fast] flag. *)
Definition chooseBaseDir : jsstring * bool :=
  if candidate_accessible T
  then (candidate, jsstring_eqb candidate (js "/dev/shm"))
  else (os_tmpdir T, false).

(** [mkdtemp(path)] makes the directory [path] followed by random characters. *)
Definition mkdtemp (path : jsstring) (random : outcome jsstring) : M jsstring :=
  match random with
  | Ok suffix =>
    let base := path ++ suffix in
    emit (EvMkdtemp base) ;;; add_dir base ;;; ret base
  | Throw e => throw e
  end.

(** [new FileTemp()] followed by [await temp.ready()]. *)
Definition new_FileTemp : M FileTemp :=
  let (dir, fast) := chooseBaseDir in
  try_catch
    (base <- mkdtemp (join dir default_prefix)
                     (match mkdtemp_first T with
                      | Some suffix => Ok suffix
                      | None => Throw (Error (js "mkdtemp failed"))
                      end) ;;
     ret (mkTemp base fast))
    (fun _ =>
       base <- mkdtemp (join (os_tmpdir T) default_prefix) (mkdtemp_fallback T) ;;
       ret (mkTemp base false)).

Definition cleanFileOnTmpFolder (t : FileTemp) : M unit :=
  if falsy (tempDir t) then ret tt
  else
    emit (EvRm (tempDir t)) ;;;
    if rm_succeeds T then remove_dir (tempDir t) else ret tt.

(** [withTemp(maybeTemp, fn, { keepTemp })] *)
Definition withTemp {A} (maybeTemp : option FileTemp)
           (fn : FileTemp -> M A) (keepTemp : bool) : M A :=
  temp <- match maybeTemp with
          | Some t => ret t
          | None => new_FileTemp
          end ;;
  try_finally (fn temp)
    (if negb keepTemp then swallow (cleanFileOnTmpFolder temp) else ret tt).

End Workspace.

(* ================================================================== *)
(** * src/lib/convert.ts *)
(* ================================================================== *)

Definition bytes := list N.

Inductive ConvertResult : Type :=
| ConvertedFile (convertedFile : bytes)
| OutputPath (outputPath : jsstring)
| Streams (stdout stderr : option jsstring).

Inductive document : Type :=
| DocBuffer (b : bytes)
| DocPath (p : jsstring).

Record ConvertOptions := mkOptions {
  opt_temp : option FileTemp;
  opt_keepTemp : bool;
  opt_timeoutMs : option Z;
  opt_signal : option AbortSignal
}.

(** The behaviour of one converter subprocess. *)
Record child_env := mkChild {
  spawn_error : option js_error;   (* the 'error' event, instead of 'close' *)
  stdout_chunks : list jsstring;
  stderr_chunks : list jsstring;
  run_time : Z;                    (* until 'close' when left alone *)
  exit_code : option Z;
  exit_signal : option jsstring;
  (* reaction to SIGTERM: delay until 'close', code and signal; None when
     the process ignores it *)
  on_sigterm : option (Z * option Z * option jsstring)
}.

Record convert_env := mkConvertEnv {
  cv_temp : temp_env;
  slot_wait : Z;                   (* time queued in the limiter *)
  write_input : option js_error;   (* writeFile(inputPath, buffer) *)
  child : child_env;
  output_accessible : bool;        (* access(outputPath) *)
  read_output : outcome bytes      (* readFile(outputPath) *)
}.

(** [stdout], [stderr], [exitCode] and [exitSignal] once the child closed. *)
Record child_exit := mkExit {
  cap_stdout : jsstring;
  cap_stderr : jsstring;
  cap_code : option Z;
  cap_signal : option jsstring
}.

Definition diag_of (x : child_exit) : diagnostics :=
  mkDiag (cap_stderr x) (cap_stdout x) (cap_code x) (cap_signal x).

Definition grace : Z := 2000.

Section Convert.

Variable Locals : Type.
Variable C : convert_env.

Local Abbreviation M := (M Locals).

(** Modelled from the spec: the limiter returned by [pLimit] is a
    dependency outside the repository.  For one caller it is a wait for a
    slot, the task, and the release of the slot when the task settles. *)
Definition limit {A} (task : M A) : M A :=
  sleep (slot_wait C) ;;;
  emit EvAcquire ;;;
  try_finally task (emit EvRelease).

Definition soffice_args (toExt inputPath outdir : jsstring) : list jsstring :=
  [js "--headless"; js "--convert-to"; toExt; inputPath; js "--outdir"; outdir].

Definition close_with (code : option Z) (sig : option jsstring) : M child_exit :=
  emit (EvChildClose code sig) ;;;
  ret (mkExit (concat (stdout_chunks (child C)))
              (concat (stderr_chunks (child C))) code sig).

(** The timer of [onAbort]: [child.killed] is set once a signal was sent. *)
Definition force_kill (killed : bool) : M unit :=
  if negb killed then emit (EvKill (js "SIGKILL")) else ret tt.

(** The callback given to [withTimeout]: spawn, listen, wait for 'close'.
    The captured variables are handed back as the callback's value. *)
Definition run_child (args : list jsstring) (signal : AbortSignal)
  : M child_exit :=
  emit (EvSpawn args) ;;;
  t0 <- clock ;;
  match spawn_error (child C) with
  | Some err => throw err
  | None =>
    let natural_end := t0 + Z.max 0 (run_time (child C)) in
    let natural :=
      sleep_until natural_end ;;;
      close_with (exit_code (child C)) (exit_signal (child C)) in
    match abort_at signal with
    | Some a =>
      if (t0 <? a) && (a <? natural_end) then
        (* onAbort *)
        sleep_until a ;;;
        emit (EvKill (js "SIGTERM")) ;;;
        let killed := true in
        match on_sigterm (child C) with
        | Some (d, code, sig) =>
          if d <=? grace then sleep d ;;; close_with code sig
          else
            sleep grace ;;; force_kill killed ;;;
            sleep (d - grace) ;;; close_with code sig
        | None =>
          sleep grace ;;; force_kill killed ;;; natural
        end
      else natural
    | None => natural
    end
  end.

Definition convertFile (documentOrPath : document) (fromExt toExt : jsstring)
           (options : ConvertOptions) : M ConvertResult :=
  limit (
    temp <- match opt_temp options with
            | Some t => ret t
            | None => new_FileTemp (cv_temp C)
            end ;;
    try_finally (
      let inputPath :=
        match documentOrPath with
        | DocPath p => p
        | DocBuffer _ => filePath temp ++ ch_dot :: fromExt
        end in
      let outputPath := filePath temp ++ ch_dot :: toExt in
      match documentOrPath with
      | DocBuffer _ =>
        emit (EvWriteInput inputPath) ;;;
        match write_input C with
        | Some err => throw err
        | None => ret tt
        end
      | DocPath _ => ret tt
      end ;;;
      let args := soffice_args toExt inputPath (tempDir temp) in
      x <- withTimeout (run_child args) (opt_timeoutMs options)
                       (opt_signal options) ;;
      (* After process exit, check for output file *)
      emit (EvAccess outputPath) ;;;
      if output_accessible C then
        if opt_keepTemp options then ret (OutputPath outputPath)
        else
          emit (EvReadFile outputPath) ;;;
          match read_output C with
          | Ok convertedFile => ret (ConvertedFile convertedFile)
          | Throw readErr =>
            throw (mkError (js "Failed to read converted file")
                           (Some (diag_of x)) (Some (err_message readErr)))
          end
      else
        throw (mkError (js "No output file produced") (Some (diag_of x)) None)
    ) (if negb (opt_keepTemp options)
       then swallow (cleanFileOnTmpFolder (cv_temp C) temp)
       else ret tt)
  ).

End Convert.

(* ================================================================== *)
(** * The admission limiter as a queueing machine *)
(* ================================================================== *)

(** [parseInt(s, 10)]; [None] is [NaN]. *)
Fixpoint parse_digits (s : jsstring) (acc : option Z) : option Z :=
  match s with
  | c :: r =>
    if ((48 <=? c) && (c <=? 57))%N
    then parse_digits r
           (Some (10 * match acc with Some a => a | None => 0 end
                  + Z.of_N (c - 48)))
    else acc
  | [] => acc
  end.

Definition parseInt10 (s : jsstring) : option Z :=
  match trimStart s with
  | 45%N :: r => option_map Z.opp (parse_digits r None)
  | 43%N :: r => parse_digits r None
  | r => parse_digits r None
  end.

(** [parseInt(process.env.CONCURRENCY_LIMIT || '5', 10)] *)
Definition concurrency_limit (CONCURRENCY_LIMIT : option jsstring) : option Z :=
  parseInt10 (match CONCURRENCY_LIMIT with
              | Some s => if falsy s then js "5" else s
              | None => js "5"
              end).

Module Limiter.

(** Tasks are named by the order number the caller gave them. *)
Abbreviation task := nat.

Record t := mk {
  concurrency : nat;
  activeCount : nat;
  running : list task;   (* tasks inside [limit], oldest first *)
  queue : list task;     (* callers waiting for a slot, oldest first *)
  started : list task    (* every task that entered, in order of entry *)
}.

(** Modelled from the spec: [pLimit] is a dependency outside the repository.
    The limiter lets at most [concurrency] tasks execute at once and makes
    additional callers wait in arrival order; it refuses a concurrency that
    is not a positive integer. *)
Definition pLimit (n : option Z) : option t :=
  match n with
  | Some z => if 0 <? z then Some (mk (Z.to_nat z) 0 [] [] []) else None
  | None => None
  end.

Inductive action : Type :=
| Call (x : task)      (* [limit(task)] is called *)
| Settle (x : task).   (* the promise of a running task settles *)

Definition dequeue (l : t) : t :=
  match queue l with
  | [] => l
  | x :: q =>
    mk (concurrency l) (S (activeCount l)) (running l ++ [x]) q
       (started l ++ [x])
  end.

Fixpoint remove_first (x : task) (l : list task) : list task :=
  match l with
  | [] => []
  | y :: r => if Nat.eqb x y then r else y :: remove_first x r
  end.

Definition step (l : t) (a : action) : t :=
  match a with
  | Call x =>
    let l' := mk (concurrency l) (activeCount l) (running l)
                 (queue l ++ [x]) (started l) in
    if (activeCount l' <? concurrency l')%nat then dequeue l' else l'
  | Settle x =>
    if existsb (Nat.eqb x) (running l) then
      dequeue (mk (concurrency l) (pred (activeCount l))
                  (remove_first x (running l)) (queue l) (started l))
    else l
  end.

Definition run (l : t) (acts : list action) : t := fold_left step acts l.

Fixpoint calls (acts : list action) : list task :=
  match acts with
  | [] => []
  | Call x :: r => x :: calls r
  | Settle _ :: r => calls r
  end.

(** What every reachable state of the limiter satisfies. *)
Definition invariant (l : t) : Prop :=
  activeCount l = List.length (running l)
  /\ (activeCount l <= concurrency l)%nat
  /\ (queue l <> [] -> activeCount l = concurrency l).

End Limiter.

(* ================================================================== *)
(** * src/server.ts: the handler of [POST /process] *)
(* ================================================================== *)

(** [Math.ceil((2 * 1024 * 1024 * 1024) / (50_000_000 / 8) * 2 * 1000)] *)
Definition DEFAULT_TIMEOUT_MS : Z := 687195.

(** The multipart field [file]. *)
Record upload_file := mkFile {
  file_name : jsstring;
  file_has_stream : bool
}.

(** The fields of the form; a field that is absent is [None]. *)
Record form_data := mkForm {
  fd_file : option upload_file;
  fd_from : option jsstring;
  fd_to : option jsstring;
  fd_uploadUrl : option jsstring
}.

(** [JSON.parse] of the body; a member is [Some] when it is a string. *)
Inductive json_data : Type :=
| JsonSyntaxError
| JsonNotObject
| JsonObject (downloadUrl from to uploadUrl : option jsstring).

Record request := mkRequest {
  req_method : jsstring;
  req_pathname : jsstring;
  req_has_download : bool;             (* url.searchParams.has('download') *)
  req_uploadUrl : option jsstring;     (* url.searchParams.get('uploadUrl') *)
  req_contentType : option jsstring;   (* req.headers.get('content-type') *)
  req_formData : outcome form_data;    (* await req.formData() *)
  req_json : json_data                 (* of await req.text() *)
}.

Inductive body : Type :=
| BodyText (s : jsstring)
| BodyJsonError (error : jsstring) (details : option jsstring)
| BodyBuffer (b : bytes)
| BodyFile (path : jsstring).         (* a lazy stream read from disk *)

Record response := mkResponse {
  status : Z;
  headers : list (jsstring * jsstring);
  resp_body : body
}.

(** The response of a remote server to the download. *)
Record fetch_response := mkFetched {
  resp_status : Z;
  resp_statusText : jsstring;
  resp_has_body : bool
}.

Definition resp_ok (r : fetch_response) : bool :=
  (200 <=? resp_status r) && (resp_status r <=? 299).

(** The response of the upload target, read in full. *)
Record upstream_response := mkUpstream {
  up_status : Z;
  up_headers : list (jsstring * jsstring);
  up_body : bytes
}.

Record server_env := mkServerEnv {
  sv_temp : temp_env;
  sv_convert : convert_env;
  upload_staging : Z * option js_error;          (* streamWebToFile of the field *)
  download_response : Z * outcome fetch_response;(* fetch(downloadUrl) *)
  download_staging : Z * option js_error;        (* streamWebToFile of the body *)
  download_basename : jsstring;   (* last segment of new URL(downloadUrl).pathname *)
  put_response : Z * outcome upstream_response   (* the PUT and its body *)
}.

(** The [let] variables of the handler that its callbacks assign. *)
Record handler_vars := mkVars {
  originalName : jsstring;
  result : option ConvertResult;
  conversionDone : bool;
  tempForCleanup : option FileTemp;
  tempCleaned : bool
}.

Definition initial_vars : handler_vars := mkVars [] None false None false.

(** Who removes the workspace when a streamed body ends or errors. *)
Inductive deferred : Type :=
| CleanTemp (t : FileTemp)     (* handlerResult.temp?.cleanFileOnTmpFolder() *)
| CleanTempNow.                (* cleanTempNow() *)

Definition reply : Type := response * option deferred.

(** The value the callback of [withTemp] returns. *)
Inductive handler_result : Type :=
| HStream (outputPath : jsstring) (temp : FileTemp)
| HUpload (uploadResp : upstream_response)
| HMemory.

Definition json_headers : list (jsstring * jsstring) :=
  [(js "Content-Type", js "application/json")].

Definition badRequest (message : jsstring) : response :=
  mkResponse 400 json_headers (BodyJsonError message None).

Definition jsonError (st : Z) (error details : jsstring) : response :=
  mkResponse st json_headers (BodyJsonError error (Some details)).

(** [x || undefined] on an optional string. *)
Definition truthy (x : option jsstring) : option jsstring :=
  match x with
  | Some s => if falsy s then None else Some s
  | None => None
  end.

(** [a || b] on optional strings. *)
Definition or_else (a b : option jsstring) : option jsstring :=
  match truthy a with Some s => Some s | None => truthy b end.

Definition is_none {X} (x : option X) : bool :=
  match x with None => true | Some _ => false end.

(** [s.replace(/^[.]/, '')] *)
Definition strip_dot (s : jsstring) : jsstring := clean_ext s.

Definition lower_char (c : code_unit) : code_unit :=
  if ((65 <=? c) && (c <=? 90))%N then (c + 32)%N else c.
Definition toLowerCase (s : jsstring) : jsstring := map lower_char s.

Definition allowed_headers : list jsstring :=
  [js "content-type"; js "content-length"; js "location"; js "etag";
   js "last-modified"; js "content-disposition"; js "cache-control"].

Definition forwarded_headers (h : list (jsstring * jsstring))
  : list (jsstring * jsstring) :=
  filter (fun kv => existsb (jsstring_eqb (toLowerCase (fst kv))) allowed_headers) h.

Definition number_to_string (z : Z) : jsstring :=
  js (NilZero.string_of_int (Z.to_int z)).

Definition uri_error : js_error := Error (js "URI malformed").

Definition stream_content_type (to : jsstring) : jsstring :=
  if jsstring_eqb to (js "pdf") then js "application/pdf"
  else js "application/octet-stream".

Definition contentTypeForConverted (toStr : jsstring) : jsstring :=
  if jsstring_eqb toStr (js "pdf") then js "application/pdf"
  else if jsstring_eqb toStr (js "docx")
  then js "application/vnd.openxmlformats-officedocument.wordprocessingml.document"
  else js "application/octet-stream".

(** How a content-type branch of the handler ends: with a [return], or by
    running into the code after the branches. *)
Inductive branch_exit : Type :=
| Return (r : reply)
| FallThrough (to : jsstring) (uploadUrlFromForm uploadUrlFromJson : option jsstring).

Section Server.

Variable E : server_env.
Variable req : request.

Local Abbreviation M := (M handler_vars).

Definition wantsDownload : bool := req_has_download req.
Definition uploadUrlParam : option jsstring := truthy (req_uploadUrl req).

Definition set_tempForCleanup (t : FileTemp) : M unit :=
  set_locals (fun v => mkVars (originalName v) (result v) (conversionDone v)
                              (Some t) (tempCleaned v)).

Definition set_tempCleaned : M unit :=
  set_locals (fun v => mkVars (originalName v) (result v) (conversionDone v)
                              (tempForCleanup v) true).

Definition set_originalName (n : jsstring) : M unit :=
  set_locals (fun v => mkVars n (result v) (conversionDone v)
                              (tempForCleanup v) (tempCleaned v)).

Definition set_result (r : ConvertResult) : M unit :=
  set_locals (fun v => mkVars (originalName v) (Some r) true
                              (tempForCleanup v) (tempCleaned v)).

Definition cleanTempNow : M unit :=
  v <- get_locals ;;
  match tempForCleanup v with
  | Some t =>
    if negb (tempCleaned v) then
      swallow (cleanFileOnTmpFolder (sv_temp E) t) ;;;
      set_tempCleaned
    else ret tt
  | None => ret tt
  end.

(** src/common/stream.ts: [streamWebToFile(stream, path, { signal })] *)
Definition streamWebToFile (has_stream : bool) (staged : event)
           (signal : option AbortSignal) (r : Z * option js_error) : M unit :=
  if negb has_stream then throw (Error (js "No stream provided"))
  else
    emit staged ;;;
    abortable signal (fst r)
      (match snd r with None => Ok tt | Some err => Throw err end).

(** The conversion step of both branches (the telemetry calls around it do
    not alter the control flow and are left out). *)
Definition run_conversion (temp : FileTemp) (inputPath from to : jsstring)
  : M unit :=
  let conversionTimeout := DEFAULT_TIMEOUT_MS in
  let fromExt := strip_dot from in
  let toExt := strip_dot to in
  res <- withTimeout
           (fun signal =>
              convertFile (sv_convert E) (DocPath inputPath) fromExt toExt
                (mkOptions (Some temp) true (Some conversionTimeout) (Some signal)))
           (Some conversionTimeout) None ;;
  set_result res.

(** The PUT of the converted file, as issued under [withTimeout]. *)
Definition put_file (url : option jsstring) (contentType to : jsstring)
           (signal : AbortSignal) : M upstream_response :=
  v <- get_locals ;;
  match contentDisposition (originalName v) to with
  | None => throw uri_error
  | Some disposition =>
    match url with
    | None => throw (Error (js "Invalid URL"))
    | Some u =>
      emit (EvPut u contentType disposition) ;;;
      abortable (Some signal) (fst (put_response E)) (snd (put_response E))
    end
  end.

(** The upload performed inside [withTemp]. *)
Definition upload_in_temp (outputPath : jsstring) (finalUploadUrl : option jsstring)
           (to : jsstring) : M handler_result :=
  emit (EvOpenOutput outputPath) ;;;
  let uploadTimeoutMs := DEFAULT_TIMEOUT_MS in
  uploadResult <- withTimeout
    (fun signal =>
       uploadResp <- put_file finalUploadUrl (stream_content_type to) to signal ;;
       ret (mkUpstream (up_status uploadResp)
                       (forwarded_headers (up_headers uploadResp))
                       (up_body uploadResp)))
    (Some uploadTimeoutMs) None ;;
  ret (HUpload uploadResult).

(** What follows the conversion inside the callback of [withTemp]. *)
Definition dispatch_in_temp (temp : FileTemp) (keepTempForStreaming : bool)
           (finalUploadUrl : option jsstring) (to : jsstring) : M handler_result :=
  v <- get_locals ;;
  match result v with
  | Some (OutputPath outputPath) =>
    if keepTempForStreaming then ret (HStream outputPath temp)
    else upload_in_temp outputPath finalUploadUrl to
  | _ => ret HMemory
  end.

(** The code after [withTemp] in both branches. *)
Definition after_withTemp (handlerResult : handler_result) (to : jsstring)
           (uploadUrlFromForm uploadUrlFromJson : option jsstring) : M branch_exit :=
  match handlerResult with
  | HStream outputPath temp =>
    if falsy outputPath then ret (FallThrough to uploadUrlFromForm uploadUrlFromJson)
    else
      emit (EvOpenOutput outputPath) ;;;
      v <- get_locals ;;
      match contentDisposition (originalName v) to with
      | None => throw uri_error
      | Some disposition =>
        ret (Return
               (mkResponse 200
                  [(js "Content-Type", stream_content_type to);
                   (js "Content-Disposition", disposition)]
                  (BodyFile outputPath),
                Some (CleanTemp temp)))
      end
  | HUpload uploadResp =>
    ret (Return (mkResponse (up_status uploadResp) (up_headers uploadResp)
                            (BodyBuffer (up_body uploadResp)), None))
  | HMemory => ret (FallThrough to uploadUrlFromForm uploadUrlFromJson)
  end.

Definition multipart_branch : M branch_exit :=
  form <- (fun w => (req_formData req, w)) ;;
  let from := truthy (fd_from form) in
  let to := truthy (fd_to form) in
  let uploadUrlFromForm := truthy (fd_uploadUrl form) in
  match fd_file form with
  | None => ret (Return (badRequest (js "Missing file field"), None))
  | Some file =>
    match from, to with
    | Some from, Some to =>
      try_catch (
        if negb (file_has_stream file) then
          cleanTempNow ;;;
          ret (Return (badRequest (js "Uploaded file has no stream"), None))
        else
          let keepTempForStreaming := wantsDownload in
          let finalUploadUrlForMultipart := or_else uploadUrlParam uploadUrlFromForm in
          if is_none finalUploadUrlForMultipart && negb wantsDownload then
            cleanTempNow ;;;
            ret (Return (badRequest (js "When not using ?download you must provide uploadUrl as a query parameter or form field"), None))
          else
            handlerResult <- withTemp (sv_temp E) None
              (fun temp =>
                 set_tempForCleanup temp ;;;
                 let inputPath := filePath temp ++ ch_dot :: from in
                 streamWebToFile true (EvStageUpload inputPath) None
                                 (upload_staging E) ;;;
                 set_originalName
                   (if falsy (file_name file) then js "converted." ++ to
                    else file_name file) ;;;
                 run_conversion temp inputPath from to ;;;
                 dispatch_in_temp temp keepTempForStreaming
                                  finalUploadUrlForMultipart to)
              keepTempForStreaming ;;
            after_withTemp handlerResult to uploadUrlFromForm None
      ) (fun err =>
           cleanTempNow ;;;
           ret (Return (jsonError 400 (js "Failed to stream uploaded file to temp")
                                  (err_message err), None)))
    | _, _ => ret (Return (badRequest (js "Missing from or to fields"), None))
    end
  end.

(** The download of [downloadUrl] into the workspace, under one deadline. *)
Definition fetch_and_stage (downloadUrl inputPath : jsstring)
           (signal : AbortSignal) : M unit :=
  emit (EvFetchGet downloadUrl) ;;;
  resp <- abortable (Some signal) (fst (download_response E))
                    (snd (download_response E)) ;;
  if negb (resp_ok resp) then
    throw (Error (js "FETCH_NOT_OK:" ++ number_to_string (resp_status resp)
                     ++ js ":" ++ resp_statusText resp))
  else if negb (resp_has_body resp) then throw (Error (js "NO_BODY"))
  else
    streamWebToFile true (EvStageDownload inputPath) (Some signal)
                    (download_staging E).

Definition json_branch : M branch_exit :=
  match req_json req with
  | JsonSyntaxError => ret (Return (badRequest (js "Invalid JSON body"), None))
  | JsonNotObject => ret (Return (badRequest (js "Invalid JSON body"), None))
  | JsonObject downloadUrl from to uploadUrlFromJson =>
    match truthy downloadUrl with
    | None => ret (Return (badRequest (js "Missing downloadUrl in JSON body"), None))
    | Some downloadUrl =>
      match truthy from, truthy to with
      | Some from, Some to =>
        let timeoutMs := DEFAULT_TIMEOUT_MS in
        let keepTempForStreaming := wantsDownload in
        try_catch (
          handlerResult <- withTemp (sv_temp E) None
            (fun temp =>
               set_tempForCleanup temp ;;;
               let inputPath := filePath temp ++ ch_dot :: from in
               withTimeout (fetch_and_stage downloadUrl inputPath)
                           (Some timeoutMs) None ;;;
               set_originalName
                 (if falsy (download_basename E) then js "downloaded." ++ to
                  else download_basename E) ;;;
               let finalUploadUrl := or_else uploadUrlParam uploadUrlFromJson in
               if is_none finalUploadUrl && negb keepTempForStreaming then
                 throw (Error (js "MISSING_UPLOAD_URL"))
               else
                 run_conversion temp inputPath from to ;;;
                 dispatch_in_temp temp keepTempForStreaming finalUploadUrl to)
            keepTempForStreaming ;;
          after_withTemp handlerResult to None uploadUrlFromJson
        ) (fun err =>
             ret (Return (jsonError 400 (js "Failed to fetch/stream downloadUrl")
                                    (err_message err), None)))
      | _, _ => ret (Return (badRequest (js "Missing from or to fields"), None))
      end
    end
  end.

Definition upload_required_message : jsstring :=
  js "When not using ?download you must provide uploadUrl as a query parameter, form field, or in the JSON body".

Definition bad_gateway (err : js_error) : response :=
  jsonError 502 (js "Failed to upload converted file") (err_message err).

Definition forward_upstream (uploadResp : upstream_response) : response :=
  mkResponse (up_status uploadResp) (forwarded_headers (up_headers uploadResp))
             (BodyBuffer (up_body uploadResp)).

(** ['stderr' in result && result.stderr] *)
Definition stderr_of (r : option ConvertResult) : option jsstring :=
  match r with
  | Some (Streams _ stderr) => truthy stderr
  | _ => None
  end.

(** [(result as { convertedFile: Buffer }).convertedFile] *)
Definition convertedFile_of (r : option ConvertResult) : option bytes :=
  match r with
  | Some (ConvertedFile b) => Some b
  | _ => None
  end.

Definition type_error : js_error := Error (js "undefined is not an object").

(** The code after the two branches, entered when neither returned. *)
Definition after_branches (toStr : jsstring)
           (uploadUrlFromForm uploadUrlFromJson : option jsstring) : M reply :=
  v <- get_locals ;;
  if negb (conversionDone v) then
    ret (badRequest (js "Conversion did not run; no input provided"), None)
  else
    let finalUploadUrl :=
      or_else uploadUrlParam (or_else uploadUrlFromForm uploadUrlFromJson) in
    match stderr_of (result v), result v with
    | Some stderr, _ => ret (jsonError 500 (js "Conversion error") stderr, None)
    | None, Some (OutputPath outputPath) =>
      if wantsDownload then
        emit (EvOpenOutput outputPath) ;;;
        match contentDisposition (originalName v) toStr with
        | None => throw uri_error
        | Some disposition =>
          ret (mkResponse 200
                 [(js "Content-Type", contentTypeForConverted toStr);
                  (js "Content-Disposition", disposition)]
                 (BodyFile outputPath),
               Some CleanTempNow)
        end
      else
        match finalUploadUrl with
        | None =>
          cleanTempNow ;;;
          ret (badRequest upload_required_message, None)
        | Some _ =>
          emit (EvOpenOutput outputPath) ;;;
          r <- try_catch
                 (uploadResp <- withTimeout
                    (put_file finalUploadUrl (contentTypeForConverted toStr) toStr)
                    (Some DEFAULT_TIMEOUT_MS) None ;;
                  ret (inl uploadResp))
                 (fun err => cleanTempNow ;;; ret (inr (bad_gateway err))) ;;
          match r with
          | inr failed => ret (failed, None)
          | inl uploadResp =>
            cleanTempNow ;;;
            ret (forward_upstream uploadResp, None)
          end
        end
    | None, other =>
      (* Fallback: result contains convertedFile Buffer *)
      if wantsDownload then
        match convertedFile_of other with
        | None => throw type_error
        | Some converted =>
          match contentDisposition (originalName v) toStr with
          | None => throw uri_error
          | Some disposition =>
            ret (mkResponse 200
                   [(js "Content-Type", js "application/octet-stream");
                    (js "Content-Disposition", disposition)]
                   (BodyBuffer converted),
                 None)
          end
        end
      else
        match finalUploadUrl with
        | None => ret (badRequest upload_required_message, None)
        | Some _ =>
          match convertedFile_of other with
          | None => throw type_error
          | Some _ =>
            r <- try_catch
                   (uploadResp <- withTimeout
                      (put_file finalUploadUrl (contentTypeForConverted toStr) toStr)
                      (Some DEFAULT_TIMEOUT_MS) None ;;
                    ret (inl uploadResp))
                   (fun err => ret (inr (bad_gateway err))) ;;
            match r with
            | inr failed => ret (failed, None)
            | inl uploadResp => ret (forward_upstream uploadResp, None)
            end
          end
        end
    end.

Definition not_found : response := mkResponse 404 [] (BodyText (js "Not Found")).

(** The [fetch] callback given to [bun.serve]. *)
Definition handler : M reply :=
  try_catch (
    if jsstring_eqb (req_method req) (js "GET")
       && jsstring_eqb (req_pathname req) (js "/metrics")
    then ret (not_found, None)
    else if negb (jsstring_eqb (req_method req) (js "POST"))
            || negb (jsstring_eqb (req_pathname req) (js "/process"))
    then ret (not_found, None)
    else
      let contentType :=
        match truthy (req_contentType req) with Some s => s | None => [] end in
      if includes contentType (js "multipart/form-data") then
        b <- multipart_branch ;;
        match b with
        | Return r => ret r
        | FallThrough to f j => after_branches to f j
        end
      else if includes contentType (js "application/json")
              || includes contentType (js "text/json") then
        b <- json_branch ;;
        match b with
        | Return r => ret r
        | FallThrough to f j => after_branches to f j
        end
      else
        ret (badRequest (js "Content-Type must be multipart/form-data or application/json"), None)
  ) (fun err => ret (mkResponse 500 [] (BodyText (err_message err)), None)).

(** The listeners on 'end' and 'error' of the stream given to the response;
    both do the same, and the stream is taken to end or to fail. *)
Definition stream_settled (d : deferred) : M unit :=
  match d with
  | CleanTemp t => swallow (cleanFileOnTmpFolder (sv_temp E) t)
  | CleanTempNow => swallow cleanTempNow
  end.

(** A request from its arrival to the end of its response body. *)
Definition serve : M response :=
  r <- handler ;;
  match snd r with
  | Some d => stream_settled d
  | None => ret tt
  end ;;;
  ret (fst r).

End Server.

Definition initial_world : world handler_vars := mkWorld 0 [] [] initial_vars.

(** The response (the handler catches every error), the workspace
    directories left on disk and the effects of one request. *)
Definition run_request (E : server_env) (req : request)
  : outcome response * world handler_vars :=
  serve E req initial_world.

Definition count_rm (tr : list event) : nat :=
  List.length (filter (fun e => match e with EvRm _ => true | _ => false end) tr).

Definition count_mkdtemp (tr : list event) : nat :=
  List.length (filter (fun e => match e with EvMkdtemp _ => true | _ => false end) tr).

(* ================================================================== *)
(** * Notions used in the statements *)
(* ================================================================== *)

(** A code unit that [sanitizeFilename] would have left as it is. *)
Definition kept_char (c : code_unit) : Prop :=
  is_control c = false /\ is_problematic c = false.


(** ** The order of the effects of a request *)

(** The stages of a request, as far as the order of its effects goes. *)
Inductive phase : Type :=
| NoWorkspace                 (* no workspace directory yet *)
| Staging                     (* workspace made, no slot held *)
| Holding (closed : bool)     (* slot held; has the child closed? *)
| Released (closed : bool).   (* slot given back *)

(** The order the pipeline keeps: the workspace is made once and first, the
    slot is taken with the workspace in place, the child lives only while
    the slot is held, and output is opened or uploaded only after the child
    closed and the slot was given back. *)
Definition step_phase (ph : phase) (e : event) : option phase :=
  match e with
  | EvMkdtemp _ =>
    match ph with NoWorkspace => Some Staging | _ => None end
  | EvAcquire =>
    match ph with Staging => Some (Holding false) | _ => None end
  | EvChildClose _ _ =>
    match ph with Holding _ => Some (Holding true) | _ => None end
  | EvSpawn _ | EvKill _ | EvAccess _ =>
    match ph with Holding _ => Some ph | _ => None end
  | EvRelease =>
    match ph with Holding c => Some (Released c) | _ => None end
  | EvOpenOutput _ | EvPut _ _ _ =>
    match ph with Released true => Some ph | _ => None end
  | _ => Some ph
  end.

Fixpoint run_phase (ph : phase) (tr : list event) : option phase :=
  match tr with
  | [] => Some ph
  | e :: r =>
    match step_phase ph e with
    | Some ph' => run_phase ph' r
    | None => None
    end
  end.

(** A trace keeps the order of the pipeline and ends with no slot held. *)
Definition orderly (tr : list event) : bool :=
  match run_phase NoWorkspace tr with
  | Some (Holding _) => false
  | Some _ => true
  | None => false
  end.

Definition is_put (e : event) : bool :=
  match e with EvPut _ _ _ => true | _ => false end.


Definition is_child_event (e : event) : bool :=
  match e with
  | EvSpawn _ | EvKill _ | EvChildClose _ _ | EvAccess _ => true
  | _ => false
  end.

Definition is_close (e : event) : bool :=
  match e with EvChildClose _ _ => true | _ => false end.

(** The events of one task inside the limiter, after the slot was taken:
    events of the child up to the release of the slot; the result tells
    whether the child closed. *)
Fixpoint held_segment (closed : bool) (evs : list event) : option bool :=
  match evs with
  | [] => None
  | EvRelease :: r => match r with [] => Some closed | _ => None end
  | e :: r =>
    if is_child_event e then held_segment (closed || is_close e) r else None
  end.

Definition slot_segment (evs : list event) : option bool :=
  match evs with
  | EvAcquire :: r => held_segment false r
  | _ => None
  end.

(** ** The outcome of a request *)

(** [result = res; conversionDone = true] *)
Definition with_result (res : ConvertResult) (v : handler_vars) : handler_vars :=
  mkVars (originalName v) (Some res) true (tempForCleanup v) (tempCleaned v).

(** The reply that forwards the answer of the upload target. *)
Definition forwarded (up : upstream_response) : response :=
  mkResponse (up_status up) (forwarded_headers (up_headers up))
             (BodyBuffer (up_body up)).

(** The request is taken by the multipart branch of the handler. *)
Definition is_multipart (req : request) : bool :=
  includes (match truthy (req_contentType req) with Some s => s | None => [] end)
           (js "multipart/form-data").

(** What holds of every request: its trace is orderly; when the PUT was
    issued and answered in time, the reply forwards that answer and the
    workspace has been removed, by one [rm]; and a multipart request leaves
    no workspace directory behind. *)
Definition request_invariant (E : server_env) (req : request)
           (x : outcome response * world handler_vars) : Prop :=
  orderly (trace (snd x)) = true
  /\ (existsb is_put (trace (snd x)) = true ->
      forall dt up,
        put_response E = (dt, Ok up) ->
        Z.max 0 dt <= DEFAULT_TIMEOUT_MS ->
        fst x = Ok (forwarded up)
        /\ count_rm (trace (snd x)) = 1%nat
        /\ (rm_succeeds (sv_temp E) = true -> live_dirs (snd x) = []))
  /\ (is_multipart req = true -> rm_succeeds (sv_temp E) = true ->
      live_dirs (snd x) = []).

(** ** Sample operations, converters and requests *)

(** An operation that runs for [d] milliseconds and then settles with [r]. *)
Definition settles_after {A} (d : Z) (r : outcome A) : AbortSignal -> M unit A :=
  fun _ => bind (sleep d) (fun _ w => (r, w)).

Definition idle_world : world unit := mkWorld 0 [] [] tt.

Definition broken_pipe : js_error := Error (js "EPIPE").

(** A file system where [/dev/shm] is usable and [rm] works. *)
Definition plain_temp_env : temp_env :=
  mkTempEnv None true (js "/tmp") (Some (js "a1B2c3")) (Ok (js "d4E5f6")) true.

(** A converter that warns on stderr and exits with code 1. *)
Definition warning_child : child_env :=
  mkChild None [js "convert -> pdf"] [js "javaldx: Could not find a Java Runtime"]
          1500 (Some 1) None None.



(** No output file is written. *)
Definition missing_output_env : convert_env :=
  mkConvertEnv plain_temp_env 0 None warning_child false (Ok []).

Definition no_options : ConvertOptions := mkOptions None false None None.

(** A converter that succeeds, and the servers around one request: the
    download answers with [download_status], the upload target with
    [upload_status]. *)
Definition quiet_child : child_env :=
  mkChild None [js "convert /tmp/doc-conv-a1B2c3/file.docx"] [] 1500 (Some 0) None
          (Some (100, None, Some (js "SIGTERM"))).

Definition working_convert_env : convert_env :=
  mkConvertEnv plain_temp_env 0 None quiet_child true (Ok [37; 80; 68; 70]%N).

Definition sample_env (download_status upload_status : Z) : server_env :=
  mkServerEnv plain_temp_env working_convert_env
    (20, None)
    (30, Ok (mkFetched download_status
                       (if download_status =? 200 then js "OK" else js "Not Found")
                       true))
    (40, None)
    (js "report.docx")
    (50, Ok (mkUpstream upload_status
               [(js "content-type", js "text/plain"); (js "x-request-id", js "7")]
               [111; 111; 112; 115]%N)).

Definition json_request (download : bool) (uploadUrl : option jsstring) : request :=
  mkRequest (js "POST") (js "/process") download None
            (Some (js "application/json"))
            (Throw (Error (js "not a form")))
            (JsonObject (Some (js "http://files.test/report.docx"))
                        (Some (js "docx")) (Some (js "pdf")) uploadUrl).

Definition multipart_request (download : bool) (uploadUrl : option jsstring) : request :=
  mkRequest (js "POST") (js "/process") download None
            (Some (js "multipart/form-data; boundary=x"))
            (Ok (mkForm (Some (mkFile (js "report.docx") true))
                        (Some (js "docx")) (Some (js "pdf")) uploadUrl))
            JsonSyntaxError.

Definition sample_dir : jsstring := js "/dev/shm/doc-conv-a1B2c3".
Definition sample_input : jsstring := js "/dev/shm/doc-conv-a1B2c3/file.docx".
Definition sample_output : jsstring := js "/dev/shm/doc-conv-a1B2c3/file.pdf".
Definition sample_url : jsstring := js "http://files.test/report.docx".
Definition sample_target : jsstring := js "http://store.test/put".
Definition sample_disposition : jsstring :=
  disposition_header (js "report.pdf") (js "report.pdf").

(** ** Notions for the effects of one call *)

Definition is_rm (e : event) : bool :=
  match e with EvRm _ => true | _ => false end.

Definition is_slot_event (e : event) : bool :=
  match e with EvAcquire | EvRelease => true | _ => false end.

Definition is_access (e : event) : bool :=
  match e with EvAccess _ => true | _ => false end.

Definition is_write_input (e : event) : bool :=
  match e with EvWriteInput _ => true | _ => false end.

(** The input file the converter is started on. *)
Definition input_of (documentOrPath : document) (temp : FileTemp)
           (fromExt : jsstring) : jsstring :=
  match documentOrPath with
  | DocPath p => p
  | DocBuffer _ => filePath temp ++ ch_dot :: fromExt
  end.

(** A converter that runs for a minute and ends two hundred milliseconds
    after SIGTERM, leaving no output. *)
Definition slow_child : child_env :=
  mkChild None [] [] 60000 (Some 0) None (Some (200, None, Some (js "SIGTERM"))).

Definition slow_convert_env : convert_env :=
  mkConvertEnv plain_temp_env 0 None slow_child false (Ok []).

(** The converter cannot be started. *)
Definition enoent : js_error := Error (js "spawn soffice ENOENT").

Definition absent_converter_env : convert_env :=
  mkConvertEnv plain_temp_env 0 None
    (mkChild (Some enoent) [] [] 0 None None None) true (Ok []).

Definition keep_options : ConvertOptions := mkOptions None true None None.

(** A request whose JSON body cannot be parsed. *)
Definition invalid_json_request : request :=
  mkRequest (js "POST") (js "/process") false None
            (Some (js "application/json"))
            (Throw (Error (js "not a form"))) JsonSyntaxError.

(** ** What holds of every request, besides the order of its effects *)

(** The status codes the handler makes itself. *)
Definition own_status (st : Z) : bool :=
  (st =? 200) || (st =? 400) || (st =? 404) || (st =? 500).

Definition staging_label : jsstring := js "Failed to stream uploaded file to temp".
Definition download_label : jsstring := js "Failed to fetch/stream downloadUrl".

(** The error reply of the branch that took the request. *)
Definition branch_error (req : request) (details : jsstring) : response :=
  jsonError 400 (if is_multipart req then staging_label else download_label)
            details.

Definition fetch_not_ok (r : fetch_response) : jsstring :=
  js "FETCH_NOT_OK:" ++ number_to_string (resp_status r)
     ++ js ":" ++ resp_statusText r.

Record request_facts (E : server_env) (req : request)
       (x : outcome response * world handler_vars) : Prop := mkFacts {
  (* the handler always answers, with a status of its own or the answer of
     the upload target *)
  fact_reply :
    exists resp,
      fst x = Ok resp
      /\ (own_status (status resp) = true
          \/ exists dt up, put_response E = (dt, Ok up) /\ resp = forwarded up);
  (* a rejection without details comes before any effect *)
  fact_rejection :
    forall resp m,
      fst x = Ok resp -> resp_body resp = BodyJsonError m None ->
      status resp = 400 /\ trace (snd x) = [];
  (* a streamed reply *)
  fact_stream :
    forall resp p,
      fst x = Ok resp -> resp_body resp = BodyFile p ->
      req_has_download req = true /\ status resp = 200
      /\ exists pre dir,
           trace (snd x) = pre ++ [EvOpenOutput p; EvRm dir]
           /\ In (EvMkdtemp dir) pre /\ In (EvAccess p) pre
           /\ (rm_succeeds (sv_temp E) = true -> live_dirs (snd x) = []);
  (* one workspace at most, and nothing else is removed *)
  fact_workspace :
    (count_mkdtemp (trace (snd x)) <= 1)%nat
    /\ forall d, In (EvRm d) (trace (snd x)) -> In (EvMkdtemp d) (trace (snd x));
  (* the converter runs on the staged file, inside the workspace *)
  fact_spawn :
    forall args,
      In (EvSpawn args) (trace (snd x)) ->
      exists dir from to,
        args = soffice_args to (join dir (js "file") ++ ch_dot :: from) dir
        /\ In (EvMkdtemp dir) (trace (snd x))
        /\ (In (EvStageUpload (join dir (js "file") ++ ch_dot :: from))
               (trace (snd x))
            \/ In (EvStageDownload (join dir (js "file") ++ ch_dot :: from))
                  (trace (snd x)));
  (* a download that is refused *)
  fact_download :
    forall url dt r,
      In (EvFetchGet url) (trace (snd x)) ->
      download_response E = (dt, Ok r) -> resp_ok r = false ->
      existsb is_slot_event (trace (snd x)) = false
      /\ exists details,
           fst x = Ok (jsonError 400 download_label details)
           /\ (Z.max 0 dt < DEFAULT_TIMEOUT_MS -> details = fetch_not_ok r);
  (* a conversion that leaves no output *)
  fact_no_output :
    forall code sig,
      In (EvChildClose code sig) (trace (snd x)) ->
      output_accessible (sv_convert E) = false ->
      fst x = Ok (branch_error req (js "No output file produced"))
      \/ fst x = Ok (branch_error req timeout_message)
}.
(* ================================================================== *)
(** * src/lib/metrics.ts: the in-memory metrics registry *)
(* ================================================================== *)

Module Metrics.

(** A [Map] with string keys: the entries in insertion order. *)
Definition jsmap (V : Type) : Type := list (jsstring * V).

Fixpoint map_get {V} (k : jsstring) (m : jsmap V) : option V :=
  match m with
  | [] => None
  | (k', v) :: r => if jsstring_eqb k' k then Some v else map_get k r
  end.

(** [m.set(k, v)]: a key that is present keeps its place, a new one is
    added last. *)
Fixpoint map_set {V} (k : jsstring) (v : V) (m : jsmap V) : jsmap V :=
  match m with
  | [] => [(k, v)]
  | (k', v') :: r =>
    if jsstring_eqb k' k then (k', v) :: r else (k', v') :: map_set k v r
  end.

(** [Labels]: [undefined], or an object given by its own properties. *)
Definition Labels : Type := option (list (jsstring * jsstring)).

(** [(m.get(k) || 0)] on the integer amounts of counters and gauges. *)
Definition or_zero (x : option Z) : Z :=
  match x with Some v => v | None => 0 end.

Record Counter := mkCounter {
  c_sum : Z;
  c_perLabel : jsmap Z
}.

Record Gauge := mkGauge {
  g_value : Z;
  g_perLabel : jsmap Z
}.

Definition new_Counter : Counter := mkCounter 0 [].
Definition new_Gauge : Gauge := mkGauge 0 [].

(** [arr[i] = arr[i] + 1]; the arrays of a histogram have one cell for each
    bucket, so the index is in range. *)
Fixpoint bump (i : nat) (arr : list Z) : list Z :=
  match arr, i with
  | [], _ => []
  | a :: r, O => (a + 1) :: r
  | a :: r, S j => a :: bump j r
  end.

(** The running sums [cum] of the loop that renders the buckets. *)
Fixpoint cumulative (cum : Z) (arr : list Z) : list Z :=
  match arr with
  | [] => []
  | a :: r => (cum + a) :: cumulative (cum + a) r
  end.

(** [arr.reduce((a,b)=>a+b,0)] *)
Definition total (arr : list Z) : Z := fold_left Z.add arr 0.

Definition sumZ (l : list Z) : Z := fold_right Z.add 0 l.

Section Registry.

(** JavaScript numbers that are not integers by nature (durations in
    seconds): the type, [<=], [+], the literal [m * 10^e], zero and
    falsiness. *)
Variable num : Type.
Variable num_leb : num -> num -> bool.
Variable num_add : num -> num -> num.
Variable num_lit : Z -> Z -> num.
Variable num_falsy : num -> bool.

(** [JSON.stringify] of the labels rebuilt with their keys sorted. *)
Variable stringify_sorted : list (jsstring * jsstring) -> jsstring.

(** [process.env.METRICS_PUSHGATEWAY_URL] and [process.env.METRICS_JOB_NAME] *)
Variable PUSH_URL : option jsstring.
Variable JOB_NAME : option jsstring.

(** [Boolean(PUSH_URL && JOB_NAME)] *)
Definition ENABLED : bool :=
  match truthy PUSH_URL, truthy JOB_NAME with
  | Some _, Some _ => true
  | _, _ => false
  end.

Definition labelsKey (labels : Labels) : jsstring :=
  match labels with
  | None => js "{}"
  | Some [] => js "{}"
  | Some kv => stringify_sorted kv
  end.

Definition Counter_inc (v : Z) (labels : Labels) (c : Counter) : Counter :=
  let k := labelsKey labels in
  mkCounter (c_sum c + v)
            (map_set k (or_zero (map_get k (c_perLabel c)) + v) (c_perLabel c)).

Definition Gauge_set (v : Z) (labels : Labels) (g : Gauge) : Gauge :=
  mkGauge v (map_set (labelsKey labels) v (g_perLabel g)).

Definition Gauge_inc (delta : Z) (labels : Labels) (g : Gauge) : Gauge :=
  let k := labelsKey labels in
  let v := or_zero (map_get k (g_perLabel g)) + delta in
  mkGauge (g_value g) (map_set k v (g_perLabel g)).

Definition Gauge_dec (delta : Z) (labels : Labels) (g : Gauge) : Gauge :=
  let k := labelsKey labels in
  let v := or_zero (map_get k (g_perLabel g)) - delta in
  mkGauge (g_value g) (map_set k v (g_perLabel g)).

Record Histogram := mkHistogram {
  h_buckets : list num;
  h_counts : jsmap (list Z);
  h_sums : jsmap num
}.

(** [buckets.slice().sort((a,b)=>a-b)] *)
Fixpoint insert_sorted (x : num) (l : list num) : list num :=
  match l with
  | [] => [x]
  | y :: r => if num_leb x y then x :: l else y :: insert_sorted x r
  end.

Definition sort_numbers (l : list num) : list num :=
  fold_right insert_sorted [] l.

Definition new_Histogram (buckets : list num) : Histogram :=
  mkHistogram (sort_numbers buckets) [] [].

(** The index of the first bucket with [value <= buckets[i]], from [i]. *)
Fixpoint first_bucket (value : num) (buckets : list num) (i : nat) : option nat :=
  match buckets with
  | [] => None
  | b :: r => if num_leb value b then Some i else first_bucket value r (S i)
  end.

(** [(this.sums.get(k) || 0)] *)
Definition sum_or_zero (x : option num) : num :=
  match x with
  | Some s => if num_falsy s then num_lit 0 0 else s
  | None => num_lit 0 0
  end.

Definition Histogram_observe (value : num) (labels : Labels) (h : Histogram)
  : Histogram :=
  let k := labelsKey labels in
  let arr := match map_get k (h_counts h) with
             | Some arr => arr
             | None => map (fun _ => 0) (h_buckets h)
             end in
  let arr := match first_bucket value (h_buckets h) 0 with
             | Some i => bump i arr
             | None => bump (List.length arr - 1) arr
             end in
  mkHistogram (h_buckets h)
              (map_set k arr (h_counts h))
              (map_set k (num_add (sum_or_zero (map_get k (h_sums h))) value)
                       (h_sums h)).

(** The three module-level maps. *)
Record registry := mkRegistry {
  counters : jsmap Counter;
  gauges : jsmap Gauge;
  histograms : jsmap Histogram
}.

Definition empty_registry : registry := mkRegistry [] [] [].

Definition default_buckets : list num :=
  [num_lit 5 (-3); num_lit 1 (-2); num_lit 5 (-2); num_lit 1 (-1);
   num_lit 5 (-1); num_lit 1 0; num_lit 25 (-1); num_lit 5 0; num_lit 10 0;
   num_lit 30 0; num_lit 60 0].

(** [let c = counters.get(name); if (!c) { c = new Counter(); ... }] *)
Definition get_or {V} (name : jsstring) (m : jsmap V) (fresh : V) : V :=
  match map_get name m with Some x => x | None => fresh end.

Definition counterInc (name : jsstring) (v : Z) (labels : Labels)
           (r : registry) : registry :=
  if negb ENABLED then r
  else
    let c := get_or name (counters r) new_Counter in
    mkRegistry (map_set name (Counter_inc v labels c) (counters r))
               (gauges r) (histograms r).

Definition gaugeSet (name : jsstring) (v : Z) (labels : Labels)
           (r : registry) : registry :=
  if negb ENABLED then r
  else
    let g := get_or name (gauges r) new_Gauge in
    mkRegistry (counters r) (map_set name (Gauge_set v labels g) (gauges r))
               (histograms r).

Definition gaugeInc (name : jsstring) (delta : Z) (labels : Labels)
           (r : registry) : registry :=
  if negb ENABLED then r
  else
    let g := get_or name (gauges r) new_Gauge in
    mkRegistry (counters r) (map_set name (Gauge_inc delta labels g) (gauges r))
               (histograms r).

Definition gaugeDec (name : jsstring) (delta : Z) (labels : Labels)
           (r : registry) : registry :=
  if negb ENABLED then r
  else
    let g := get_or name (gauges r) new_Gauge in
    mkRegistry (counters r) (map_set name (Gauge_dec delta labels g) (gauges r))
               (histograms r).

Definition histogramObserve (name : jsstring) (value : num) (labels : Labels)
           (r : registry) : registry :=
  if negb ENABLED then r
  else
    let h := get_or name (histograms r) (new_Histogram default_buckets) in
    mkRegistry (counters r) (gauges r)
               (map_set name (Histogram_observe value labels h) (histograms r)).

Definition resetAllMetrics (r : registry) : registry := empty_registry.

(** One line of the exposition; the label set of a sample is named by its
    key in the per-label map ([None] for a sample without labels). *)
Inductive line : Type :=
| Help (name kind : jsstring)
| TypeOf (name kind : jsstring)
| CounterTotal (name : jsstring) (labels : option jsstring) (v : Z)
| GaugeValue (name : jsstring) (labels : option jsstring) (v : Z)
| Bucket (name : jsstring) (labels : option jsstring) (le : option num) (cum : Z)
| HistogramSum (name : jsstring) (labels : option jsstring) (s : num)
| HistogramCount (name : jsstring) (labels : option jsstring) (n : Z)
| ScrapeTimestamp (seconds : Z).

(** The per-label samples: the entry under [{}] is skipped. *)
Definition labelled {V} (mk : option jsstring -> V -> line) (m : jsmap V)
  : list line :=
  flat_map (fun kv => if jsstring_eqb (fst kv) (js "{}") then []
                      else [mk (Some (fst kv)) (snd kv)]) m.

Definition render_counter (entry : jsstring * Counter) : list line :=
  let (name, c) := entry in
  [Help name (js "Counter"); TypeOf name (js "counter");
   CounterTotal name None (c_sum c)]
  ++ labelled (CounterTotal name) (c_perLabel c).

Definition render_gauge (entry : jsstring * Gauge) : list line :=
  let (name, g) := entry in
  [Help name (js "Gauge"); TypeOf name (js "gauge");
   GaugeValue name None (g_value g)]
  ++ labelled (GaugeValue name) (g_perLabel g).

Definition series_labels (k : jsstring) : option jsstring :=
  if jsstring_eqb k (js "{}") then None else Some k.

(** The bucket lines of one series: [le] is [h.buckets[i]]. *)
Fixpoint bucket_lines (name : jsstring) (labels : option jsstring)
         (buckets : list num) (i : nat) (cums : list Z) : list line :=
  match cums with
  | [] => []
  | c :: r =>
    Bucket name labels (nth_error buckets i) c
    :: bucket_lines name labels buckets (S i) r
  end.

Definition render_series (name : jsstring) (h : Histogram)
           (entry : jsstring * list Z) : list line :=
  let (k, arr) := entry in
  let labels := series_labels k in
  bucket_lines name labels (h_buckets h) 0 (cumulative 0 arr)
  ++ [HistogramSum name labels (sum_or_zero (map_get k (h_sums h)));
      HistogramCount name labels (total arr)].

Definition render_histogram (entry : jsstring * Histogram) : list line :=
  let (name, h) := entry in
  [Help name (js "Histogram"); TypeOf name (js "histogram")]
  ++ flat_map (render_series name h) (h_counts h).

Definition scrape_name : jsstring := js "metrics_last_scrape_timestamp_seconds".

(** [renderMetricsInternal], at the instant [now_ms]; the lines are joined
    with line feeds by the caller. *)
Definition renderMetricsInternal (now_ms : Z) (r : registry) : list line :=
  flat_map render_counter (counters r)
  ++ flat_map render_gauge (gauges r)
  ++ flat_map render_histogram (histograms r)
  ++ [Help scrape_name (js "Last scrape timestamp");
      TypeOf scrape_name (js "gauge");
      ScrapeTimestamp (now_ms / 1000)].

(** [renderMetrics]: the empty string when metrics are not enabled. *)
Definition renderMetrics (now_ms : Z) (r : registry) : list line :=
  if negb ENABLED then [] else renderMetricsInternal now_ms r.

(** A call of one of the exported recording functions. *)
Inductive call : Type :=
| CounterIncCall (name : jsstring) (v : Z) (labels : Labels)
| GaugeSetCall (name : jsstring) (v : Z) (labels : Labels)
| GaugeIncCall (name : jsstring) (delta : Z) (labels : Labels)
| GaugeDecCall (name : jsstring) (delta : Z) (labels : Labels)
| ObserveCall (name : jsstring) (value : num) (labels : Labels).

Definition record_call (r : registry) (c : call) : registry :=
  match c with
  | CounterIncCall name v labels => counterInc name v labels r
  | GaugeSetCall name v labels => gaugeSet name v labels r
  | GaugeIncCall name delta labels => gaugeInc name delta labels r
  | GaugeDecCall name delta labels => gaugeDec name delta labels r
  | ObserveCall name value labels => histogramObserve name value labels r
  end.

(** The registry after the calls, starting from the empty maps. *)
Definition after (calls : list call) : registry :=
  fold_left record_call calls empty_registry.

Definition sets_gauge (name : jsstring) (c : call) : bool :=
  match c with
  | GaugeSetCall n _ _ => jsstring_eqb n name
  | _ => false
  end.


Definition observes (name key : jsstring) (c : call) : bool :=
  match c with
  | ObserveCall n _ labels =>
    jsstring_eqb n name && jsstring_eqb (labelsKey labels) key
  | _ => false
  end.

(** The observations recorded for the series [key] of the histogram [name]. *)
Definition observations (name key : jsstring) (calls : list call) : Z :=
  Z.of_nat (List.length (filter (observes name key) calls)).

Definition has_bound (l : line) : bool :=
  match l with
  | Bucket _ _ None _ => false
  | _ => true
  end.


(** Histograms: every series has one cell for each of the eleven buckets,
    and the cells add up to the observations of the series. *)
Definition series_consistent (calls : list call) (name : jsstring)
           (h : Histogram) : Prop :=
  List.length (h_buckets h) = 11%nat
  /\ forall key,
       match map_get key (h_counts h) with
       | Some arr =>
         List.length arr = 11%nat
         /\ Forall (fun a => 0 <= a) arr
         /\ sumZ arr = observations name key calls
       | None => observations name key calls = 0
       end.

Definition histograms_consistent (calls : list call) (r : registry)
  : Prop :=
  forall name,
    match map_get name (histograms r) with
    | Some h => series_consistent calls name h
    | None => forall key, observations name key calls = 0
    end.

End Registry.

Arguments CounterIncCall {num} name v labels.
Arguments GaugeSetCall {num} name v labels.
Arguments GaugeIncCall {num} name delta labels.
Arguments GaugeDecCall {num} name delta labels.
Arguments ObserveCall {num} name value labels.
Arguments Help {num} name kind.
Arguments TypeOf {num} name kind.
Arguments CounterTotal {num} name labels v.
Arguments GaugeValue {num} name labels v.
Arguments Bucket {num} name labels le cum.
Arguments HistogramSum {num} name labels s.
Arguments HistogramCount {num} name labels n.
Arguments ScrapeTimestamp {num} seconds.

Fixpoint non_decreasing (l : list Z) : Prop :=
  match l with
  | [] => True
  | a :: r =>
    match r with
    | [] => True
    | b :: _ => a <= b /\ non_decreasing r
    end
  end.

(** A configuration for examples: durations in milliseconds, the key of a
    label set made of its names and values, and both variables set. *)
Definition millis (m e : Z) : Z := m * 10 ^ (e + 3).

Definition plain_key (kv : list (jsstring * jsstring)) : jsstring :=
  flat_map (fun p => fst p ++ 61%N :: snd p ++ [59%N]) kv.

Definition sample_push_url : option jsstring := Some (js "http://push.test:9091").
Definition sample_job : option jsstring := Some (js "doc-converter").

Definition sample_calls : list (call Z) :=
  [CounterIncCall (js "api_requests_total") 1
     (Some [(js "endpoint", js "/process")]);
   GaugeIncCall (js "api_requests_in_flight") 1 None;
   ObserveCall (js "conversion_duration_seconds") 1500 None;
   CounterIncCall (js "conversion_success_total") 1 None;
   GaugeDecCall (js "api_requests_in_flight") 1 None;
   ObserveCall (js "conversion_duration_seconds") 90000 None;
   CounterIncCall (js "api_requests_total") 1
     (Some [(js "endpoint", js "/process")])].

End Metrics.

(* ================================================================== *)
(** * Properties of the file-name functions *)
(* ================================================================== *)


Lemma sanitize_char_kept : forall c, kept_char (sanitize_char c).
Proof.
  intro c. unfold sanitize_char, kept_char.
  destruct (is_control c) eqn:Hc; [split; reflexivity|].
  destruct (is_problematic c) eqn:Hp; [split; reflexivity|].
  now split.
Qed.

Lemma Forall_trimStart : forall (P : code_unit -> Prop) s,
  Forall P s -> Forall P (trimStart s).
Proof.
  intros P s H. induction H as [|c r Hc Hr IH]; simpl; [constructor|].
  destruct (is_js_whitespace c); [exact IH | now constructor].
Qed.

Lemma Forall_trim : forall (P : code_unit -> Prop) s,
  Forall P s -> Forall P (trim s).
Proof.
  intros P s H. unfold trim.
  apply Forall_rev, Forall_trimStart, Forall_rev, Forall_trimStart, H.
Qed.

Lemma Forall_firstn_keep : forall (P : code_unit -> Prop) n s,
  Forall P s -> Forall P (firstn n s).
Proof.
  intros P n s H. revert n.
  induction H as [|c r Hc Hr IH]; intros [|n]; simpl; constructor; auto.
Qed.

Lemma kept_file : Forall kept_char (js "file").
Proof. repeat constructor. Qed.

Section FilenameFacts.

Variable basename : jsstring -> option jsstring -> jsstring.
Variable extname : jsstring -> jsstring.

Lemma sanitizeFilename_kept : forall name n,
  Forall kept_char (sanitizeFilename basename name n).
Proof.
  intros name n. unfold sanitizeFilename.
  destruct (falsy name); [apply kept_file|].
  set (b := trim (map sanitize_char (basename name None))).
  assert (Hb : Forall kept_char b).
  { apply Forall_trim. apply Forall_forall. intros c Hc.
    apply in_map_iff in Hc. destruct Hc as [x [<- _]]. apply sanitize_char_kept. }
  destruct (n <? List.length b)%nat.
  - destruct (falsy (firstn n b)) eqn:Hf; [apply kept_file|].
    now apply Forall_firstn_keep.
  - destruct (falsy b); [apply kept_file | exact Hb].
Qed.



End FilenameFacts.

(** [encodeURIComponent] on text outside ASCII: the UTF-8 octets of U+00E9 and
    of the pair D83D DE00, and the error on a lone surrogate. *)
Example encodeURIComponent_utf8 :
  encodeURIComponent [233; 32; 55357; 56832]%N = Some (js "%C3%A9%20%F0%9F%98%80")
  /\ encodeURIComponent [97; 55357]%N = None.
Proof. split; reflexivity. Qed.










(* ================================================================== *)
(** * The deadline scope *)
(* ================================================================== *)

Section WithTimeoutFacts.

Variable Locals : Type.
Variable A : Type.
Variable fn : AbortSignal -> M Locals A.
Variable ms : option Z.
Variable parentSignal : option AbortSignal.



End WithTimeoutFacts.





(* ================================================================== *)
(** * The admission limiter *)
(* ================================================================== *)

Module LimiterFacts.
Import Limiter.

Lemma remove_first_length : forall x l,
  existsb (Nat.eqb x) l = true ->
  S (List.length (remove_first x l)) = List.length l.
Proof.
  intros x l. induction l as [|y r IH]; simpl; [discriminate|].
  destruct (Nat.eqb x y); simpl; [reflexivity|].
  intro H. now rewrite IH.
Qed.

Lemma step_invariant : forall l a, invariant l -> invariant (step l a).
Proof.
  intros l a (Hlen & Hle & Hfull). destruct a as [x|x]; simpl.
  - destruct (activeCount l <? concurrency l)%nat eqn:Hlt.
    + apply Nat.ltb_lt in Hlt.
      assert (Hq : queue l = []).
      { destruct (queue l) eqn:Eq; [reflexivity|].
        assert (activeCount l = concurrency l) by (apply Hfull; discriminate). lia. }
      unfold dequeue; simpl. rewrite Hq; simpl.
      unfold invariant; simpl. rewrite length_app; simpl.
      split; [lia|]. split; [lia|]. intro H. now contradiction H.
    + apply Nat.ltb_ge in Hlt. unfold invariant; simpl.
      split; [exact Hlen|]. split; [exact Hle|]. intros _. lia.
  - destruct (existsb (Nat.eqb x) (running l)) eqn:Hin;
      [|unfold invariant; auto].
    pose proof (remove_first_length _ _ Hin) as Hr.
    unfold dequeue; simpl.
    destruct (queue l) as [|y q] eqn:Eq; simpl.
    + unfold invariant; simpl. split; [lia|]. split; [lia|].
      intro H. now contradiction H.
    + assert (activeCount l = concurrency l) by (apply Hfull; discriminate).
      unfold invariant; simpl. rewrite length_app; simpl.
      split; [lia|]. split; [lia|]. intros _. lia.
Qed.

(** Tasks enter in the order of the calls: the log of entries followed by
    the queue is the list of calls. *)
Lemma step_order : forall l a,
  invariant l ->
  started (step l a) ++ queue (step l a)
  = (started l ++ queue l) ++ calls [a].
Proof.
  intros l a (Hlen & Hle & Hfull). destruct a as [x|x]; simpl.
  - destruct (activeCount l <? concurrency l)%nat eqn:Hlt.
    + apply Nat.ltb_lt in Hlt.
      assert (Hq : queue l = []).
      { destruct (queue l) eqn:Eq; [reflexivity|].
        assert (activeCount l = concurrency l) by (apply Hfull; discriminate). lia. }
      unfold dequeue; simpl. rewrite Hq; simpl. now rewrite !app_nil_r.
    + simpl. now rewrite app_assoc.
  - rewrite app_nil_r.
    destruct (existsb (Nat.eqb x) (running l)); [|reflexivity].
    unfold dequeue; simpl. destruct (queue l) as [|y q]; simpl; [reflexivity|].
    now rewrite <- app_assoc.
Qed.

Lemma calls_app : forall a b, calls (a ++ b) = calls a ++ calls b.
Proof.
  induction a as [|[x|x] r IH]; intro b; simpl; [reflexivity| |]; now rewrite IH.
Qed.

Lemma run_invariant : forall acts l,
  invariant l ->
  invariant (run l acts)
  /\ started (run l acts) ++ queue (run l acts)
     = (started l ++ queue l) ++ calls acts.
Proof.
  induction acts as [|a r IH]; intros l Hl.
  - simpl. split; [exact Hl | now rewrite app_nil_r].
  - destruct (IH (step l a) (step_invariant a Hl)) as [Hi Ho].
    change (run l (a :: r)) with (run (step l a) r).
    split; [exact Hi|]. rewrite Ho.
    rewrite (step_order a Hl). rewrite <- app_assoc.
    change (a :: r) with ([a] ++ r). now rewrite calls_app.
Qed.

End LimiterFacts.

(** C5: the limiter of [convertFile] is made with N = CONCURRENCY_LIMIT, 5
    when the variable is not set; whatever calls and completions happen,
    at most N tasks are inside the limiter, tasks enter in the order of the
    calls, and a caller waits only while all N slots are taken. *)
Theorem limiter_bound_fifo :
  forall (CONCURRENCY_LIMIT : option jsstring) (n : Z) (limit0 : Limiter.t)
         (acts : list Limiter.action),
    concurrency_limit CONCURRENCY_LIMIT = Some n ->
    Limiter.pLimit (Some n) = Some limit0 ->
    let l := Limiter.run limit0 acts in
    concurrency_limit None = Some 5
    /\ (List.length (Limiter.running l) <= Z.to_nat n)%nat
    /\ Limiter.started l ++ Limiter.queue l = Limiter.calls acts
    /\ (Limiter.queue l <> [] -> List.length (Limiter.running l) = Z.to_nat n).
Proof.
  intros env n limit0 acts _ Hmk l.
  split; [reflexivity|].
  unfold Limiter.pLimit in Hmk.
  destruct (0 <? n) eqn:Hn; [|discriminate]. injection Hmk as <-.
  assert (H0 : Limiter.invariant (Limiter.mk (Z.to_nat n) 0 [] [] [])).
  { repeat split; simpl; try lia. intro H. now contradiction H. }
  destruct (LimiterFacts.run_invariant acts H0) as [(Hlen & Hle & Hfull) Hord].
  fold l in Hlen, Hle, Hfull, Hord.
  assert (Hc : forall a k, Limiter.concurrency (Limiter.run k a) = Limiter.concurrency k).
  { induction a as [|x r IH]; intro k; [reflexivity|].
    change (Limiter.run k (x :: r)) with (Limiter.run (Limiter.step k x) r).
    rewrite IH.
    destruct x as [x|x]; simpl.
    - destruct (_ <? _)%nat; [|reflexivity].
      unfold Limiter.dequeue; simpl. destruct (Limiter.queue k ++ [x]); reflexivity.
    - destruct (existsb _ _); [|reflexivity].
      unfold Limiter.dequeue; simpl. destruct (Limiter.queue k); reflexivity. }
  assert (Hcl : Limiter.concurrency l = Z.to_nat n) by (unfold l; now rewrite Hc).
  rewrite <- Hlen. rewrite Hcl in *.
  split; [exact Hle|]. split; [exact Hord | exact Hfull].
Qed.

Lemma limiter_bound_fifo_witness :
  let l := Limiter.run (Limiter.mk 2 0 [] [] [])
             [Limiter.Call 1; Limiter.Call 2; Limiter.Call 3; Limiter.Settle 1;
              Limiter.Call 4]%nat in
  concurrency_limit None = Some 5
  /\ (List.length (Limiter.running l) <= 2)%nat
  /\ Limiter.started l ++ Limiter.queue l = [1; 2; 3; 4]%nat
  /\ (Limiter.queue l <> [] -> List.length (Limiter.running l) = 2%nat).
Proof.
  exact (@limiter_bound_fifo (Some (js "2")) 2 (Limiter.mk 2 0 [] [] [])
           [Limiter.Call 1; Limiter.Call 2; Limiter.Call 3; Limiter.Settle 1;
            Limiter.Call 4]%nat eq_refl eq_refl).
Defined.

(* ================================================================== *)
(** * The conversion invoker *)
(* ================================================================== *)

Ltac exec_convert_in H :=
  cbv beta iota zeta delta
    [convertFile limit run_child close_with force_kill new_FileTemp
     chooseBaseDir mkdtemp cleanFileOnTmpFolder withTimeout withTimeout_scope
     outcome_of_scope try_finally try_catch swallow bind ret throw emit
     sleep sleep_until clock add_dir remove_dir
     now live_dirs trace locals
     opt_temp opt_keepTemp opt_timeoutMs opt_signal negb diag_of
     cap_stdout cap_stderr cap_code cap_signal tempDir fast] in H.

Ltac split_in H :=
  match type of H with
  | context [match ?x with _ => _ end] =>
    lazymatch x with
    | context [match _ with _ => _ end] => fail
    | _ => destruct x eqn:?
    end
  end.

Ltac in_trace H :=
  repeat match type of H with
  | In _ (_ :: _) => destruct H as [H|H]; [try discriminate H|]
  | In _ [] => contradiction H
  end.






(* ================================================================== *)
(** * The steps of the handler *)
(* ================================================================== *)

Lemma falsy_app_cons : forall (a : jsstring) c b, falsy (a ++ c :: b) = false.
Proof. intros [|x a] c b; reflexivity. Qed.

Lemma jsstring_eqb_refl : forall s, jsstring_eqb s s = true.
Proof.
  intro s. unfold jsstring_eqb.
  destruct (list_eq_dec N.eq_dec s s) as [_|H]; [reflexivity | now contradiction H].
Qed.

Lemma count_rm_app : forall a b, count_rm (a ++ b) = (count_rm a + count_rm b)%nat.
Proof. intros a b. unfold count_rm. now rewrite filter_app, length_app. Qed.

(** A slot segment holds child events only. *)
Lemma held_segment_facts : forall evs c0 c,
  held_segment c0 evs = Some c ->
  existsb is_put evs = false /\ count_rm evs = 0%nat
  /\ (forall rest, run_phase (Holding c0) (evs ++ rest) = run_phase (Released c) rest).
Proof.
  induction evs as [|e r IH]; intros c0 c H; [discriminate H|].
  destruct e; cbn in H; try discriminate H;
    rewrite ?orb_true_r, ?orb_false_r in H;
    try (destruct (IH _ _ H) as (Hp & Hr & Hrun);
         split; [exact Hp|]; split; [exact Hr|];
         intro rest; cbn; rewrite Hrun; reflexivity).
  destruct r; [|discriminate H]. injection H as <-.
  repeat split. 
Qed.

Lemma slot_segment_facts : forall evs c,
  slot_segment evs = Some c ->
  existsb is_put evs = false /\ count_rm evs = 0%nat
  /\ (forall rest, run_phase Staging (evs ++ rest) = run_phase (Released c) rest).
Proof.
  intros [|e r] c H; [discriminate H|].
  destruct e; try discriminate H. cbn in H.
  destruct (held_segment_facts _ _ H) as (Hp & Hr & Hrun).
  split; [exact Hp|]. split; [exact Hr|]. intro rest. cbn. apply Hrun.
Qed.

Ltac split_goal :=
  match goal with
  | |- context [match ?x with _ => _ end] =>
    lazymatch x with
    | context [match _ with _ => _ end] => fail
    | _ => destruct x eqn:?
    end
  end.

Ltac exec_conversion :=
  cbv beta iota zeta delta
    [run_conversion set_result set_locals with_result
     convertFile limit run_child close_with force_kill withTimeout
     withTimeout_scope outcome_of_scope try_finally try_catch swallow bind ret
     throw emit sleep sleep_until clock
     now live_dirs trace locals fst snd
     originalName result conversionDone tempForCleanup tempCleaned
     opt_temp opt_keepTemp opt_timeoutMs opt_signal negb diag_of
     cap_stdout cap_stderr cap_code cap_signal].

(** The conversion step: its events form one slot segment, nothing else of
    the world changes but the clock, and on success the result is the path
    of the output file in the workspace and the child has closed. *)
Lemma run_conversion_summary :
  forall (E : server_env) (temp : FileTemp) (inputPath from to : jsstring)
         (w : world handler_vars),
    let X := run_conversion E temp inputPath from to w in
    exists evs c,
      trace (snd X) = trace w ++ evs
      /\ slot_segment evs = Some c
      /\ live_dirs (snd X) = live_dirs w
      /\ ((fst X = Ok tt
           /\ locals (snd X)
              = with_result (OutputPath (filePath temp ++ ch_dot :: strip_dot to))
                            (locals w)
           /\ c = true)
          \/ (exists e, fst X = Throw e /\ locals (snd X) = locals w)).
Proof.
  intros E temp inputPath from to [t dirs tr vars]. cbv zeta.
  exec_conversion.
  repeat (split_goal; exec_conversion);
    cbn [fst snd trace live_dirs locals];
    rewrite <- ?app_assoc; cbn [app];
    eexists _, _; (split; [reflexivity|]); (split; [reflexivity|]);
    (split; [reflexivity|]);
    first [ left; repeat split; reflexivity
          | right; eexists; split; reflexivity ].
Qed.

Lemma default_deadline : forall start,
  timer_deadline (Some DEFAULT_TIMEOUT_MS) start = Some (start + DEFAULT_TIMEOUT_MS).
Proof. reflexivity. Qed.

Ltac exec_step :=
  cbv beta iota zeta delta
    [upload_in_temp put_file fetch_and_stage streamWebToFile abortable
     withTimeout withTimeout_scope outcome_of_scope controller_signal earliest
     abort_at new_FileTemp mkdtemp
     try_finally try_catch swallow bind ret throw emit sleep sleep_until clock
     get_locals set_locals add_dir remove_dir
     now live_dirs trace locals fst snd
     originalName result conversionDone tempForCleanup tempCleaned
     tempDir fast negb];
  rewrite ?default_deadline;
  cbv beta iota zeta delta [earliest abort_at fst snd].

(** A fresh workspace: one directory with a name that is not empty, or an
    error and no directory. *)
Lemma new_FileTemp_summary :
  forall (Locals : Type) (T : temp_env) (w : world Locals),
    let X := new_FileTemp T w in
    now (snd X) = now w /\ locals (snd X) = locals w
    /\ ((exists temp,
           fst X = Ok temp /\ falsy (tempDir temp) = false
           /\ trace (snd X) = trace w ++ [EvMkdtemp (tempDir temp)]
           /\ live_dirs (snd X) = tempDir temp :: live_dirs w)
        \/ (exists e,
              fst X = Throw e /\ trace (snd X) = trace w
              /\ live_dirs (snd X) = live_dirs w)).
Proof.
  intros Locals T [t dirs tr vars]. cbv zeta.
  unfold new_FileTemp. destruct (chooseBaseDir T) as [dir fst_]. exec_step.
  repeat (split_goal; exec_step); cbn [fst snd trace live_dirs locals now];
    (split; [reflexivity|]); (split; [reflexivity|]);
    first [ left; eexists; split; [reflexivity|]; split;
            [ unfold join; rewrite <- app_assoc; apply falsy_app_cons
            | split; reflexivity ]
          | right; eexists; repeat split; reflexivity ].
Qed.

(** The upload inside [withTemp]: the output is opened, then the PUT is
    issued; the step succeeds exactly with the answer of the target, and
    fails after the PUT only when the target did not answer in time. *)
Lemma upload_in_temp_summary :
  forall (E : server_env) (outputPath : jsstring) (url : option jsstring)
         (to : jsstring) (w : world handler_vars),
    let X := upload_in_temp E outputPath url to w in
    live_dirs (snd X) = live_dirs w /\ locals (snd X) = locals w
    /\ ((exists e evs,
           fst X = Throw e
           /\ trace (snd X) = trace w ++ EvOpenOutput outputPath :: evs
           /\ (evs = []
               \/ exists u ct d,
                    evs = [EvPut u ct d]
                    /\ forall dt up, put_response E = (dt, Ok up) ->
                                     Z.max 0 dt <= DEFAULT_TIMEOUT_MS -> False))
        \/ (exists u ct d dt up,
              fst X = Ok (HUpload (mkUpstream (up_status up)
                                     (forwarded_headers (up_headers up))
                                     (up_body up)))
              /\ trace (snd X) = trace w ++ [EvOpenOutput outputPath; EvPut u ct d]
              /\ put_response E = (dt, Ok up))).
Proof.
  intros E outputPath url to [t dirs tr vars]. cbv zeta.
  destruct (put_response E) as [dt r] eqn:Hput.
  exec_step. rewrite ?Hput. exec_step.
  repeat (split_goal; exec_step); cbn [fst snd trace live_dirs locals now];
    rewrite <- ?app_assoc; cbn [app];
    (split; [reflexivity|]); (split; [reflexivity|]);
    first [ right; eexists _, _, _, _, _; split; [reflexivity|];
            split; reflexivity
          | left; eexists _, _; split; [reflexivity|]; split; [reflexivity|];
            first [ left; reflexivity
                  | right; eexists _, _, _; split; [reflexivity|];
                    intros dt' up' Heq Hle; injection Heq as <- Heq;
                    first [ discriminate Heq
                          | match goal with
                            | H : (_ <? _) = true |- _ =>
                              apply Z.ltb_lt in H; lia
                            end ] ] ].
Qed.

(** The download into the workspace: the GET, then the write of the body. *)
Lemma fetch_stage_summary :
  forall (E : server_env) (url inputPath : jsstring) (w : world handler_vars),
    let X := withTimeout (fetch_and_stage E url inputPath)
                         (Some DEFAULT_TIMEOUT_MS) None w in
    live_dirs (snd X) = live_dirs w /\ locals (snd X) = locals w
    /\ (exists evs,
          trace (snd X) = trace w ++ EvFetchGet url :: evs
          /\ (evs = [] \/ evs = [EvStageDownload inputPath]))
    /\ (fst X = Ok tt \/ exists e, fst X = Throw e).
Proof.
  intros E url inputPath [t dirs tr vars]. cbv zeta.
  exec_step.
  repeat (split_goal; exec_step); cbn [fst snd trace live_dirs locals now];
    rewrite <- ?app_assoc; cbn [app];
    (split; [reflexivity|]); (split; [reflexivity|]);
    (split; [eexists; split; [reflexivity|]; first [left; reflexivity | right; reflexivity]|]);
    first [ left; destruct v; reflexivity | left; reflexivity
          | right; eexists; reflexivity ].
Qed.

(* ================================================================== *)
(** * Every path of the handler *)
(* ================================================================== *)

Ltac exec_handler :=
  cbv beta iota zeta delta
    [run_request serve handler multipart_branch json_branch after_branches
     after_withTemp dispatch_in_temp cleanTempNow stream_settled
     set_tempForCleanup set_tempCleaned set_originalName withTemp
     cleanFileOnTmpFolder streamWebToFile abortable
     try_finally try_catch swallow bind ret throw emit sleep sleep_until clock
     get_locals set_locals add_dir remove_dir initial_world initial_vars
     now live_dirs trace locals fst snd
     originalName result conversionDone tempForCleanup tempCleaned
     negb with_result wantsDownload stderr_of convertedFile_of];
  rewrite ?falsy_app_cons.

Ltac use_summary :=
  match goal with
  | |- context [new_FileTemp ?T ?w] =>
    let H := fresh "Hnew" in
    pose proof (new_FileTemp_summary T w) as H; cbv zeta in H;
    destruct (new_FileTemp T w) as [? [? ? ? ?]];
    cbn [fst snd trace live_dirs locals now] in H;
    destruct H as (-> & -> & [(? & -> & ? & -> & ->) | (? & -> & -> & ->)])
  | |- context [run_conversion ?E ?t ?p ?f ?to ?w] =>
    let H := fresh "Hconv" in
    pose proof (run_conversion_summary E t p f to w) as H; cbv zeta in H;
    destruct (run_conversion E t p f to w) as [? [? ? ? ?]];
    cbn [fst snd trace live_dirs locals now] in H;
    destruct H as (? & ? & -> & ? & -> & [(-> & -> & ->) | (? & -> & ->)])
  | |- context [upload_in_temp ?E ?o ?u ?to ?w] =>
    let H := fresh "Hup" in
    pose proof (upload_in_temp_summary E o u to w) as H; cbv zeta in H;
    destruct (upload_in_temp E o u to w) as [? [? ? ? ?]];
    cbn [fst snd trace live_dirs locals now] in H;
    destruct H as (-> & -> & [(? & ? & -> & -> & [-> | (? & ? & ? & -> & ?)])
                             | (? & ? & ? & ? & ? & -> & -> & ?)])
  | |- context [withTimeout (fetch_and_stage ?E ?u ?p) ?ms ?ps ?w] =>
    let H := fresh "Hfetch" in
    pose proof (fetch_stage_summary E u p w) as H; cbv zeta in H;
    destruct (withTimeout (fetch_and_stage E u p) ms ps w) as [? [? ? ? ?]];
    cbn [fst snd trace live_dirs locals now] in H;
    destruct H as (-> & -> & (? & -> & [-> | ->]) & [-> | (? & ->)])
  end.

Ltac known_fact :=
  match goal with
  | H : falsy ?x = false |- context [falsy ?x] => rewrite H
  end.

Ltac order_part :=
  cbn [run_phase step_phase];
  repeat match goal with
  | H : forall rest, run_phase Staging (?evs ++ rest) = _ |- _ =>
    first [ rewrite H
          | match goal with
            | |- context [run_phase Staging evs] =>
              rewrite <- (app_nil_r evs) at 1; rewrite H
            end ];
    cbn [run_phase step_phase]
  end;
  reflexivity.

Ltac upload_part :=
  cbn [existsb is_put orb]; rewrite ?existsb_app;
  repeat match goal with
  | H : existsb is_put _ = false |- _ => rewrite H
  end;
  cbn [existsb is_put orb];
  let Hput := fresh "Hput" in
  let Hresp := fresh "Hresp" in
  let Hle := fresh "Hle" in
  let Hrm := fresh "Hrm" in
  intro Hput;
  first
    [ discriminate Hput
    | intros dt up Hresp Hle;
      first
        [ solve [exfalso; eauto]
        | match goal with
          | H : put_response _ = (_, Ok _) |- _ =>
            rewrite H in Hresp; injection Hresp as <- <-
          end;
          split; [reflexivity|];
          split;
          [ unfold count_rm in *; cbn [filter];
            rewrite ?filter_app, ?length_app;
            repeat match goal with
            | H : List.length (filter _ _) = 0%nat |- _ => rewrite H
            end;
            reflexivity
          | intro Hrm; cbn [filter]; rewrite ?jsstring_eqb_refl;
            first [reflexivity | congruence] ] ] ].

Ltac multipart_part :=
  unfold is_multipart;
  let Hm := fresh "Hm" in
  let Hrm := fresh "Hrm" in
  intros Hm Hrm;
  repeat match goal with
  | H : truthy (req_contentType _) = _ |- _ => rewrite H in Hm
  end;
  first
    [ congruence
    | cbn [filter]; rewrite ?jsstring_eqb_refl; cbn [filter];
      first [reflexivity | congruence] ].

Ltac leaf :=
  unfold request_invariant, orderly; cbn [fst snd trace live_dirs locals];
  rewrite <- ?app_assoc; cbn [app];
  repeat match goal with
  | H : slot_segment ?evs = Some _ |- _ =>
    destruct (slot_segment_facts _ H) as (? & ? & ?); clear H
  end;
  split; [order_part | split; [upload_part | multipart_part]].

Lemma request_invariant_holds :
  forall (E : server_env) (req : request),
    request_invariant E req (run_request E req).
Proof.
  intros E req. exec_handler.
  repeat (first [ use_summary | known_fact | split_goal ]; exec_handler).
  all: try discriminate.
  all: solve [leaf].
Qed.


(* ================================================================== *)
(** * The order of the effects of a request *)
(* ================================================================== *)









(* ================================================================== *)
(** * Forwarding the converted file *)
(* ================================================================== *)

(** C7 (amended): when the conversion succeeded and the PUT to the upload
    target was answered in time, the caller receives the status the target
    answered with (a 500 stays a 500), its allow-listed headers and its
    body; the workspace directory is removed, by exactly one [rm]. *)
Theorem upload_answer_forwarded :
  forall (E : server_env) (req : request) (url contentType disposition : jsstring)
         (dt : Z) (up : upstream_response),
    In (EvPut url contentType disposition) (trace (snd (run_request E req))) ->
    put_response E = (dt, Ok up) ->
    Z.max 0 dt <= DEFAULT_TIMEOUT_MS ->
    exists resp,
      fst (run_request E req) = Ok resp
      /\ status resp = up_status up
      /\ headers resp = forwarded_headers (up_headers up)
      /\ resp_body resp = BodyBuffer (up_body up)
      /\ count_rm (trace (snd (run_request E req))) = 1%nat
      /\ (rm_succeeds (sv_temp E) = true -> live_dirs (snd (run_request E req)) = []).
Proof.
  intros E req url contentType disposition dt up Hin Hput Hdt.
  destruct (request_invariant_holds E req) as (_ & Hup & _).
  assert (Hex : existsb is_put (trace (snd (run_request E req))) = true).
  { apply existsb_exists. eexists. split; [exact Hin | reflexivity]. }
  destruct (Hup Hex dt up Hput Hdt) as (Hresp & Hrm & Hlive).
  exists (forwarded up). repeat split; assumption.
Qed.

Lemma upload_answer_forwarded_witness :
  exists resp,
    fst (run_request (sample_env 200 500) (json_request false (Some sample_target)))
    = Ok resp
    /\ status resp = 500.
Proof.
  destruct (@upload_answer_forwarded
              (sample_env 200 500) (json_request false (Some sample_target))
              sample_target (js "application/pdf") sample_disposition 50
              (mkUpstream 500
                 [(js "content-type", js "text/plain"); (js "x-request-id", js "7")]
                 [111; 111; 112; 115]%N)
              ltac:(vm_compute; tauto) eq_refl ltac:(vm_compute; discriminate))
    as (resp & H1 & H2 & _).
  exists resp. split; [exact H1 | exact H2].
Defined.

(** C7 fails as stated: the upload target answers 500 to the PUT of a
    successfully converted file, and the caller receives that 500, not 502. *)
Lemma upload_500_reaches_caller :
  let run := run_request (sample_env 200 500)
                         (json_request false (Some sample_target)) in
  In (EvPut sample_target (js "application/pdf") sample_disposition)
     (trace (snd run))
  /\ fst run
     = Ok (mkResponse 500 [(js "content-type", js "text/plain")]
                      (BodyBuffer [111; 111; 112; 115]%N))
  /\ ~ (exists resp, fst run = Ok resp /\ status resp = 502).
Proof.
  cbv zeta.
  assert (Hrun : fst (run_request (sample_env 200 500)
                        (json_request false (Some sample_target)))
                 = Ok (mkResponse 500 [(js "content-type", js "text/plain")]
                                  (BodyBuffer [111; 111; 112; 115]%N)))
    by (vm_compute; reflexivity).
  split; [vm_compute; tauto|]. split; [exact Hrun|].
  intros (resp & Hresp & Hst). rewrite Hrun in Hresp.
  injection Hresp as <-. discriminate Hst.
Qed.

(* ================================================================== *)
(** * The workspace of a request *)
(* ================================================================== *)

(** The multipart branch removes the workspace on every path. *)
Lemma multipart_workspace_removed :
  forall (E : server_env) (req : request),
    is_multipart req = true ->
    rm_succeeds (sv_temp E) = true ->
    live_dirs (snd (run_request E req)) = [].
Proof.
  intros E req Hm Hrm.
  destruct (request_invariant_holds E req) as (_ & _ & H). exact (H Hm Hrm).
Qed.

(** C1 is violated by the JSON branch: with [?download] set and the
    download answered by a 404, the workspace directory that was made is
    never removed; the caller receives the 400 of the [catch] block. *)
Theorem json_download_failure_leaks_workspace :
  let run := run_request (sample_env 404 200) (json_request true None) in
  fst run
  = Ok (jsonError 400 (js "Failed to fetch/stream downloadUrl")
                  (js "FETCH_NOT_OK:404:Not Found"))
  /\ trace (snd run) = [EvMkdtemp sample_dir; EvFetchGet sample_url]
  /\ count_mkdtemp (trace (snd run)) = 1%nat
  /\ count_rm (trace (snd run)) = 0%nat
  /\ live_dirs (snd run) = [sample_dir].
Proof. cbv zeta. repeat split; vm_compute; reflexivity. Qed.

(** C6 is violated by the JSON branch: a request with neither [uploadUrl]
    nor [?download] has its workspace made and its input downloaded and
    staged before the missing output mode is noticed. *)
Theorem json_missing_output_mode_staged_first :
  let run := run_request (sample_env 200 200) (json_request false None) in
  fst run
  = Ok (jsonError 400 (js "Failed to fetch/stream downloadUrl")
                  (js "MISSING_UPLOAD_URL"))
  /\ trace (snd run)
     = [EvMkdtemp sample_dir; EvFetchGet sample_url;
        EvStageDownload sample_input; EvRm sample_dir]
  /\ count_mkdtemp (trace (snd run)) = 1%nat.
Proof. cbv zeta. repeat split; vm_compute; reflexivity. Qed.

(** The multipart branch refuses the same request before any effect. *)
Example multipart_missing_output_mode_refused :
  let run := run_request (sample_env 200 200) (multipart_request false None) in
  fst run
  = Ok (badRequest (js "When not using ?download you must provide uploadUrl as a query parameter or form field"))
  /\ trace (snd run) = [].
Proof. cbv zeta. split; vm_compute; reflexivity. Qed.

(* ================================================================== *)
(** * Further properties of the file-name functions *)
(* ================================================================== *)

Lemma take_segment_rev_no_slash : forall r,
  Forall kept_char r -> take_segment_rev r = r.
Proof.
  intros r H. induction H as [|c r [_ Hc] _ IH]; [reflexivity|]. simpl.
  destruct (c =? ch_slash)%N eqn:Hs.
  - apply N.eqb_eq in Hs. subst c. discriminate Hc.
  - now rewrite IH.
Qed.

Lemma drop_trailing_slashes_rev_no_slash : forall r,
  Forall kept_char r -> drop_trailing_slashes_rev r = r.
Proof.
  intros [|c r] H; [reflexivity|]. simpl.
  destruct (c =? ch_slash)%N eqn:Hs; [|reflexivity].
  apply N.eqb_eq in Hs. subst c. inversion H as [|? ? [_ Hc] _]. discriminate Hc.
Qed.

Lemma last_segment_no_slash : forall name,
  Forall kept_char name -> last_segment name = name.
Proof.
  intros name H. unfold last_segment.
  assert (Hr : Forall kept_char (rev name)) by now apply Forall_rev.
  rewrite (drop_trailing_slashes_rev_no_slash Hr), (take_segment_rev_no_slash Hr).
  apply rev_involutive.
Qed.

Lemma map_sanitize_char_kept : forall s,
  Forall kept_char s -> map sanitize_char s = s.
Proof.
  intros s H. induction H as [|c r [Hc Hp] _ IH]; [reflexivity|]. simpl.
  unfold sanitize_char at 1. rewrite Hc, Hp, IH. reflexivity.
Qed.

(** X1: whatever the name and the limit, [sanitizeFilename] returns a name
    that is not empty, holds no control character and none of the characters
    it lists as problematic, and is at most [maxLength] code units long, or
    four (the fallback [file]) when [maxLength] is below four. *)
Theorem sanitizeFilename_result :
  forall (basename : jsstring -> option jsstring -> jsstring)
         (name : jsstring) (maxLength : nat),
    let b := sanitizeFilename basename name maxLength in
    b <> [] /\ Forall kept_char b
    /\ (List.length b <= Nat.max maxLength 4)%nat
    /\ ((maxLength < List.length b)%nat -> b = js "file").
Proof.
  intros basename name n. cbv zeta.
  split; [|split; [apply sanitizeFilename_kept|]].
  - unfold sanitizeFilename. destruct (falsy name); [discriminate|].
    match goal with |- (if falsy ?x then _ else _) <> _ =>
      destruct x eqn:Hx; [discriminate | cbn [falsy]; discriminate] end.
  - unfold sanitizeFilename.
    destruct (falsy name); [split; [simpl; lia | reflexivity]|].
    set (t := trim (map sanitize_char (basename name None))).
    destruct (n <? List.length t)%nat eqn:Hlt.
    + destruct (falsy (firstn n t)) eqn:Hf; [split; [simpl; lia | reflexivity]|].
      rewrite length_firstn. split; lia.
    + apply Nat.ltb_ge in Hlt.
      destruct (falsy t) eqn:Hf; [split; [simpl; lia | reflexivity]|].
      split; lia.
Qed.

(** X2: a name that is already safe comes back unchanged: not empty, free of
    control and problematic characters (so without a directory part), without
    white space around it and within the limit. *)
Theorem sanitizeFilename_safe_name_unchanged :
  forall (name : jsstring) (maxLength : nat),
    name <> [] ->
    Forall kept_char name ->
    trim name = name ->
    (List.length name <= maxLength)%nat ->
    sanitizeFilename path_basename name maxLength = name.
Proof.
  intros name n Hne Hk Htrim Hlen. unfold sanitizeFilename.
  destruct name as [|c r]; [now contradiction Hne|]. cbn [falsy].
  unfold path_basename. rewrite (last_segment_no_slash Hk).
  rewrite (map_sanitize_char_kept Hk), Htrim.
  apply Nat.ltb_ge in Hlen. rewrite Hlen. reflexivity.
Qed.

Lemma sanitizeFilename_safe_name_unchanged_witness :
  sanitizeFilename path_basename (js "report 2024.docx") 100 = js "report 2024.docx".
Proof.
  apply sanitizeFilename_safe_name_unchanged.
  - discriminate.
  - repeat constructor.
  - reflexivity.
  - vm_compute. repeat constructor.
Defined.

(* ================================================================== *)
(** * Further properties of the deadline scope *)
(* ================================================================== *)

(** X3: without a positive [ms] (none given, zero or negative) no timer is
    set: [withTimeout] behaves as the operation run on a signal that follows
    the parent alone, and never produces the time-out error of its own. *)
Theorem withTimeout_without_timer :
  forall (Locals A : Type) (fn : AbortSignal -> M Locals A) (ms : option Z)
         (parentSignal : option AbortSignal) (w : world Locals),
    (forall m, ms = Some m -> m <= 0) ->
    withTimeout fn ms parentSignal w
    = fn (mkSignal (match parentSignal with
                    | Some p => abort_at p
                    | None => None
                    end)) w.
Proof.
  intros Locals A fn ms parentSignal w Hms.
  assert (Hd : forall start, timer_deadline ms start = None).
  { intro start. unfold timer_deadline. destruct ms as [m|]; [|reflexivity].
    specialize (Hms m eq_refl). destruct (0 <? m) eqn:Hm; [|reflexivity].
    apply Z.ltb_lt in Hm. lia. }
  unfold withTimeout, withTimeout_scope, controller_signal, timedOut_at.
  rewrite Hd.
  assert (He : forall x, earliest x None = x) by (intros [x|]; reflexivity).
  rewrite He.
  destruct (fn _ w) as [[v|e] w']; reflexivity.
Qed.

Lemma withTimeout_without_timer_witness :
  withTimeout (settles_after 200 (@Throw nat broken_pipe)) (Some 0) None idle_world
  = (Throw broken_pipe, mkWorld 200 [] [] tt).
Proof.
  rewrite (@withTimeout_without_timer unit nat
             (settles_after 200 (Throw broken_pipe)) (Some 0) None idle_world).
  - reflexivity.
  - intros m Hm. injection Hm as <-. lia.
Defined.


(* ================================================================== *)
(** * The temporary workspace *)
(* ================================================================== *)



(** X6: [withTemp] on a workspace of its own: when the workspace cannot be
    made the callback is not run and the error comes out; otherwise the
    callback's value or error comes out unchanged, the directory is removed
    once, after the callback, unless [keepTemp] is set, and with [keepTemp]
    nothing is removed. *)
Theorem withTemp_own_workspace :
  forall (Locals A : Type) (T : temp_env) (fn : FileTemp -> M Locals A)
         (keepTemp : bool) (w : world Locals),
    (forall e w1, new_FileTemp T w = (Throw e, w1) ->
       withTemp T None fn keepTemp w = (Throw e, w1) /\ trace w1 = trace w)
    /\ (forall t w1 r w2,
          new_FileTemp T w = (Ok t, w1) ->
          fn t w1 = (r, w2) ->
          exists w3,
            withTemp T None fn keepTemp w = (r, w3)
            /\ now w3 = now w2 /\ locals w3 = locals w2
            /\ (keepTemp = true -> w3 = w2)
            /\ (keepTemp = false ->
                trace w3 = trace w2 ++ [EvRm (tempDir t)]
                /\ (rm_succeeds T = true -> ~ In (tempDir t) (live_dirs w3))
                /\ (forall d, In d (live_dirs w3) -> In d (live_dirs w2)))).
Proof.
  intros Locals A T fn keepTemp w. split.
  - intros e w1 Hnew. unfold withTemp, bind. rewrite Hnew. split; [reflexivity|].
    pose proof (new_FileTemp_summary T w) as H. cbv zeta in H. rewrite Hnew in H.
    cbn [fst snd] in H.
    destruct H as (_ & _ & [(? & Hc & _) | (? & _ & Htr & _)]);
      [discriminate Hc | exact Htr].
  - intros t w1 r w2 Hnew Hfn.
    pose proof (new_FileTemp_summary T w) as H. cbv zeta in H. rewrite Hnew in H.
    cbn [fst snd] in H.
    destruct H as (_ & _ & [(t' & Ht & Hdir & _) | (? & Hc & _)]);
      [|discriminate Hc].
    injection Ht as <-.
    unfold withTemp, bind, try_finally. rewrite Hnew, Hfn.
    destruct keepTemp; cbn [negb].
    + eexists. cbv [ret]. split; [reflexivity|].
      repeat split; intros; try reflexivity; discriminate.
    + unfold swallow, try_catch, cleanFileOnTmpFolder. rewrite Hdir.
      destruct w2 as [t2 dirs2 tr2 vars2].
      destruct (rm_succeeds T) eqn:Hrm;
        cbv beta iota zeta delta
          [bind ret emit remove_dir now live_dirs trace locals];
        (eexists; split; [reflexivity|]);
        cbn [now locals trace live_dirs];
        (split; [reflexivity|]); (split; [reflexivity|]);
        (split; [intro Hk; discriminate Hk|]); intros _;
        (split; [reflexivity|]); split.
      * intros _ Hin. apply filter_In in Hin. destruct Hin as [_ Hin].
        rewrite jsstring_eqb_refl in Hin. discriminate Hin.
      * intros d Hin. apply filter_In in Hin. tauto.
      * intro Hc. discriminate Hc.
      * intros d Hin. exact Hin.
Qed.

Lemma withTemp_own_workspace_witness :
  exists w3,
    withTemp plain_temp_env None
      (fun _ : FileTemp => @throw unit nat broken_pipe) false idle_world
    = (Throw broken_pipe, w3)
    /\ trace w3 = [EvMkdtemp (js "/dev/shm/doc-conv-a1B2c3");
                   EvRm (js "/dev/shm/doc-conv-a1B2c3")]
    /\ live_dirs w3 = [].
Proof.
  destruct (proj2 (@withTemp_own_workspace unit nat plain_temp_env
                     (fun _ : FileTemp => throw broken_pipe) false idle_world)
                  (mkTemp (js "/dev/shm/doc-conv-a1B2c3") true)
                  (mkWorld 0 [js "/dev/shm/doc-conv-a1B2c3"]
                           [EvMkdtemp (js "/dev/shm/doc-conv-a1B2c3")] tt)
                  (Throw broken_pipe)
                  (mkWorld 0 [js "/dev/shm/doc-conv-a1B2c3"]
                           [EvMkdtemp (js "/dev/shm/doc-conv-a1B2c3")] tt)
                  eq_refl eq_refl)
    as (w3 & Hrun & _ & _ & _ & Hclean).
  exists w3. split; [exact Hrun|].
  destruct (Hclean eq_refl) as (Htr & Hgone & Hsub).
  split; [exact Htr|].
  destruct (live_dirs w3) as [|d r] eqn:Hd; [reflexivity|].
  exfalso. apply (Hgone eq_refl).
  assert (Hin : In d (d :: r)) by now left.
  destruct (Hsub d Hin) as [<-|[]]. exact Hin.
Defined.

(* ================================================================== *)
(** * Further properties of the conversion invoker *)
(* ================================================================== *)

Ltac z_facts :=
  repeat match goal with
  | H : (_ && _) = true |- _ => apply andb_true_iff in H; destruct H
  | H : (_ <? _) = true |- _ => apply Z.ltb_lt in H
  | H : (_ <? _) = false |- _ => apply Z.ltb_ge in H
  | H : (_ <=? _) = true |- _ => apply Z.leb_le in H
  | H : (_ <=? _) = false |- _ => apply Z.leb_gt in H
  end.

Ltac explore_convert H :=
  exec_convert_in H; repeat (split_in H; exec_convert_in H).

Ltac exec_convert :=
  cbv beta iota zeta delta
    [convertFile limit run_child close_with force_kill new_FileTemp
     chooseBaseDir mkdtemp cleanFileOnTmpFolder withTimeout withTimeout_scope
     outcome_of_scope try_finally try_catch swallow bind ret throw emit
     sleep sleep_until clock add_dir remove_dir
     now live_dirs trace locals fst snd
     opt_temp opt_keepTemp opt_timeoutMs opt_signal negb diag_of
     cap_stdout cap_stderr cap_code cap_signal tempDir fast].

(** X7: a call of [convertFile] that makes its own workspace and is not
    asked to keep it removes the directory on every path that made one
    (input not written, converter not started, no output, output not read,
    success): as many [rm] as [mkdtemp], and no directory left that was not
    there before. *)
Theorem convertFile_leaves_no_workspace :
  forall (Locals : Type) (C : convert_env) (documentOrPath : document)
         (fromExt toExt : jsstring) (options : ConvertOptions)
         (w w' : world Locals) (r : outcome ConvertResult),
    opt_temp options = None ->
    opt_keepTemp options = false ->
    rm_succeeds (cv_temp C) = true ->
    convertFile C documentOrPath fromExt toExt options w = (r, w') ->
    (forall d, In d (live_dirs w') -> In d (live_dirs w))
    /\ exists evs,
         trace w' = trace w ++ evs
         /\ count_rm evs = count_mkdtemp evs.
Proof.
  intros Locals C doc fromExt toExt [temp keep ms parent] [t0 dirs tr vars] w' r
         Htemp Hkeep Hrm Hrun.
  cbn in Htemp, Hkeep. subst temp keep.
  pose proof (fun s => @falsy_app_cons (fst (chooseBaseDir (cv_temp C)))
                         ch_slash (default_prefix ++ s)) as Hdir.
  pose proof (fun s => @falsy_app_cons (os_tmpdir (cv_temp C))
                         ch_slash (default_prefix ++ s)) as Hdir'.
  unfold convertFile, limit, new_FileTemp in Hrun.
  destruct (chooseBaseDir (cv_temp C)) as [dir fst_] eqn:Hbase.
  cbn [fst] in Hdir.
  exec_convert_in Hrun. unfold join in Hrun.
  repeat (rewrite <- ?app_assoc in Hrun; cbn [app] in Hrun;
          rewrite ?Hdir, ?Hdir', ?Hrm in Hrun;
          first [ split_in Hrun | progress exec_convert_in Hrun ]).
  all: injection Hrun as <- <-; cbn [live_dirs trace filter];
    rewrite ?jsstring_eqb_refl; cbn [negb];
    (split;
     [ intros d Hin; try (apply filter_In in Hin; destruct Hin as [Hin _]);
       exact Hin
     | rewrite <- ?app_assoc; cbn [app]; eexists; split; [reflexivity|];
       reflexivity ]).
Qed.

Lemma convertFile_leaves_no_workspace_witness :
  let run := convertFile missing_output_env (DocBuffer [80; 75]%N) (js "docx")
                         (js "pdf") no_options idle_world in
  live_dirs (snd run) = [].
Proof.
  intro run.
  pose proof (proj1 (@convertFile_leaves_no_workspace unit missing_output_env
                  (DocBuffer [80; 75]%N) (js "docx") (js "pdf") no_options
                  idle_world (snd run) (fst run) eq_refl eq_refl eq_refl
                  (surjective_pairing _))) as Hsub.
  destruct (live_dirs (snd run)) as [|d r]; [reflexivity|].
  destruct (Hsub d (or_introl eq_refl)).
Defined.

(** X8: with [keepTemp] set, [convertFile] removes nothing, and a call that
    succeeds returns the path of the output file it checked, inside the
    workspace it was given or the one it made, which is still on disk. *)
Theorem convertFile_keepTemp_keeps_workspace :
  forall (Locals : Type) (C : convert_env) (documentOrPath : document)
         (fromExt toExt : jsstring) (options : ConvertOptions)
         (w w' : world Locals) (r : outcome ConvertResult),
    opt_keepTemp options = true ->
    convertFile C documentOrPath fromExt toExt options w = (r, w') ->
    (exists evs, trace w' = trace w ++ evs /\ existsb is_rm evs = false)
    /\ (forall res, r = Ok res ->
        exists temp,
          res = OutputPath (filePath temp ++ ch_dot :: toExt)
          /\ In (EvAccess (filePath temp ++ ch_dot :: toExt)) (trace w')
          /\ (opt_temp options = Some temp /\ live_dirs w' = live_dirs w
              \/ opt_temp options = None
                 /\ live_dirs w' = tempDir temp :: live_dirs w)).
Proof.
  intros Locals C doc fromExt toExt [temp keep ms parent] [t0 dirs tr vars] w' r
         Hkeep Hrun.
  cbn in Hkeep. subst keep.
  explore_convert Hrun.
  all: injection Hrun as <- <-; cbn [live_dirs trace opt_temp];
    rewrite <- ?app_assoc; cbn [app];
    (split;
     [ eexists; split; [reflexivity | reflexivity]
     | intros res Hres;
       first
         [ discriminate Hres
         | injection Hres as <-;
           eexists; split; [reflexivity|];
           split;
           [ rewrite ?in_app_iff; cbn [In]; tauto
           | first [ left; split; reflexivity | right; split; reflexivity ] ] ] ]).
Qed.

Lemma convertFile_keepTemp_keeps_workspace_witness :
  let run := convertFile working_convert_env (DocBuffer [80; 75]%N) (js "docx")
                         (js "pdf") keep_options idle_world in
  exists evs, trace (snd run) = trace idle_world ++ evs /\ existsb is_rm evs = false.
Proof.
  intro run.
  apply (proj1 (@convertFile_keepTemp_keeps_workspace unit working_convert_env
                  (DocBuffer [80; 75]%N) (js "docx") (js "pdf") keep_options
                  idle_world (snd run) (fst run) eq_refl (surjective_pairing _))).
Defined.

(** X9: however a call of [convertFile] ends, it takes the slot of the
    limiter before any other effect and gives it back as its last effect,
    once each. *)
Theorem convertFile_slot_first_and_last :
  forall (Locals : Type) (C : convert_env) (documentOrPath : document)
         (fromExt toExt : jsstring) (options : ConvertOptions)
         (w : world Locals),
    exists mid,
      trace (snd (convertFile C documentOrPath fromExt toExt options w))
      = trace w ++ EvAcquire :: mid ++ [EvRelease]
      /\ existsb is_slot_event mid = false.
Proof.
  intros Locals C doc fromExt toExt [temp keep ms parent] [t0 dirs tr vars].
  exec_convert.
  repeat (split_goal; exec_convert).
  all: cbn [snd trace]; rewrite <- ?app_assoc; cbn [app].
  all: match goal with
       | |- exists mid, ?tr ++ EvAcquire :: ?l = ?tr ++ EvAcquire :: mid ++ _ /\ _ =>
         let m := eval cbv [removelast] in (removelast l) in
         exists m; split; [reflexivity | reflexivity]
       end.
Qed.

(** X10: when the converter cannot be started the error of the spawn comes
    out of [convertFile] as it is, and the output file is never looked for. *)
Theorem convertFile_spawn_failure :
  forall (Locals : Type) (C : convert_env) (documentOrPath : document)
         (fromExt toExt : jsstring) (options : ConvertOptions)
         (t0 : Z) (dirs : list jsstring) (vars : Locals)
         (w' : world Locals) (r : outcome ConvertResult)
         (err : js_error) (args : list jsstring),
    spawn_error (child C) = Some err ->
    convertFile C documentOrPath fromExt toExt options (mkWorld t0 dirs [] vars)
    = (r, w') ->
    In (EvSpawn args) (trace w') ->
    r = Throw err /\ existsb is_access (trace w') = false.
Proof.
  intros Locals C doc fromExt toExt [temp keep ms parent] t0 dirs vars w' r
         err args Hspawn Hrun Hin.
  exec_convert_in Hrun. rewrite Hspawn in Hrun.
  assert (Hnow : forall ms0 start,
             timedOut_at ms0 start start = false).
  { intros ms0 start. unfold timedOut_at, timer_deadline.
    destruct ms0 as [m|]; [|reflexivity].
    destruct (0 <? m) eqn:Hm; [|reflexivity].
    apply Z.ltb_lt in Hm. apply Z.leb_gt. lia. }
  repeat (rewrite ?Hnow in Hrun;
          first [ split_in Hrun | progress exec_convert_in Hrun ]).
  all: injection Hrun as <- <-; cbn [trace app] in Hin |- *; in_trace Hin;
    split; reflexivity.
Qed.

Lemma convertFile_spawn_failure_witness :
  let run := convertFile absent_converter_env (DocBuffer [80; 75]%N) (js "docx")
                         (js "pdf") no_options idle_world in
  fst run = Throw enoent /\ existsb is_access (trace (snd run)) = false.
Proof.
  intro run.
  apply (@convertFile_spawn_failure unit absent_converter_env
           (DocBuffer [80; 75]%N) (js "docx") (js "pdf") no_options 0 [] tt
           (snd run) (fst run) enoent
           (soffice_args (js "pdf") (js "/dev/shm/doc-conv-a1B2c3/file.docx")
                         (js "/dev/shm/doc-conv-a1B2c3"))).
  - reflexivity.
  - apply surjective_pairing.
  - vm_compute. tauto.
Defined.



(** X12: a converter that is still running when the deadline of [timeoutMs]
    passes is sent SIGTERM; [convertFile] then waits for it to close and
    goes on to look for the output file, so the call ends by what it finds
    there and not with the time-out error. *)
Theorem convertFile_deadline_terminates_child :
  forall (Locals : Type) (C : convert_env) (documentOrPath : document)
         (fromExt toExt : jsstring) (options : ConvertOptions)
         (t0 : Z) (dirs : list jsstring) (vars : Locals)
         (w' : world Locals) (r : outcome ConvertResult)
         (m : Z) (args : list jsstring),
    opt_timeoutMs options = Some m ->
    0 < m < run_time (child C) ->
    opt_signal options = None ->
    spawn_error (child C) = None ->
    convertFile C documentOrPath fromExt toExt options (mkWorld t0 dirs [] vars)
    = (r, w') ->
    In (EvSpawn args) (trace w') ->
    In (EvKill (js "SIGTERM")) (trace w')
    /\ (exists code sig, In (EvChildClose code sig) (trace w'))
    /\ existsb is_access (trace w') = true
    /\ (forall e, r = Throw e ->
          err_message e = js "No output file produced"
          \/ err_message e = js "Failed to read converted file").
Proof.
  intros Locals C doc fromExt toExt [temp keep ms parent] t0 dirs vars w' r
         m args Hms Hm Hsig Hspawn Hrun Hin.
  cbn in Hms, Hsig. subst ms parent.
  exec_convert_in Hrun. rewrite Hspawn in Hrun.
  cbv beta iota zeta delta [controller_signal timer_deadline earliest abort_at]
    in Hrun.
  assert (Hpos : (0 <? m) = true) by (apply Z.ltb_lt; lia).
  rewrite Hpos in Hrun.
  cbv beta iota zeta delta [earliest abort_at] in Hrun.
  assert (Hfire : forall start,
             ((start <? start + m)
              && (start + m <? start + Z.max 0 (run_time (child C)))) = true).
  { intro start. apply andb_true_iff. split; apply Z.ltb_lt; lia. }
  repeat (rewrite ?Hfire in Hrun;
          first [ split_in Hrun | progress exec_convert_in Hrun ]).
  all: injection Hrun as <- <-; cbn [trace app] in Hin |- *; in_trace Hin.
  all: (split; [cbn [In]; tauto|]);
    (split; [eexists _, _; cbn [In]; tauto|]);
    (split; [reflexivity|]);
    (let He := fresh "He" in
     intros ? He;
     first [discriminate He | injection He as <-; cbn [err_message]; tauto]).
Qed.

Lemma convertFile_deadline_terminates_child_witness :
  let run := convertFile slow_convert_env (DocBuffer [80; 75]%N) (js "docx")
                         (js "pdf") (mkOptions None false (Some 1000) None)
                         idle_world in
  In (EvKill (js "SIGTERM")) (trace (snd run))
  /\ (exists code sig, In (EvChildClose code sig) (trace (snd run)))
  /\ existsb is_access (trace (snd run)) = true
  /\ (forall e, fst run = Throw e ->
        err_message e = js "No output file produced"
        \/ err_message e = js "Failed to read converted file").
Proof.
  intro run.
  apply (@convertFile_deadline_terminates_child unit slow_convert_env
           (DocBuffer [80; 75]%N) (js "docx") (js "pdf")
           (mkOptions None false (Some 1000) None) 0 [] tt
           (snd run) (fst run) 1000
           (soffice_args (js "pdf") (js "/dev/shm/doc-conv-a1B2c3/file.docx")
                         (js "/dev/shm/doc-conv-a1B2c3"))).
  - reflexivity.
  - cbn. lia.
  - reflexivity.
  - reflexivity.
  - apply surjective_pairing.
  - vm_compute. tauto.
Defined.

Ltac spawn_arguments_leaf :=
  split; [reflexivity|];
  cbn [opt_temp tempDir];
  (split;
   [ first [ left; reflexivity
           | right; split; [reflexivity|]; cbn [In]; tauto ] |]);
  first [ reflexivity
        | match goal with
          | |- exists pre post, EvAcquire :: ?e :: ?rest = _ =>
            first [ exists [EvAcquire]; eexists; reflexivity
                  | exists [EvAcquire; e]; eexists; reflexivity ]
          end ].

(** X13: the converter is started as
    [soffice --headless --convert-to <to> <input> --outdir <workspace>]:
    the input is the path the caller gave, and then nothing is written, or
    the file [file.<from>] of the workspace, written just before from the
    buffer; the workspace is the one given in the options or the one just
    made. *)
Theorem convertFile_spawn_arguments :
  forall (Locals : Type) (C : convert_env) (documentOrPath : document)
         (fromExt toExt : jsstring) (options : ConvertOptions)
         (t0 : Z) (dirs : list jsstring) (vars : Locals)
         (w' : world Locals) (r : outcome ConvertResult) (args : list jsstring),
    convertFile C documentOrPath fromExt toExt options (mkWorld t0 dirs [] vars)
    = (r, w') ->
    In (EvSpawn args) (trace w') ->
    exists temp,
      args = soffice_args toExt (input_of documentOrPath temp fromExt) (tempDir temp)
      /\ (opt_temp options = Some temp
          \/ opt_temp options = None /\ In (EvMkdtemp (tempDir temp)) (trace w'))
      /\ match documentOrPath with
         | DocPath _ => existsb is_write_input (trace w') = false
         | DocBuffer _ =>
           exists pre post,
             trace w' = pre ++ EvWriteInput (input_of documentOrPath temp fromExt)
                            :: EvSpawn args :: post
         end.
Proof.
  intros Locals C doc fromExt toExt [temp keep ms parent] t0 dirs vars w' r
         args Hrun Hin.
  explore_convert Hrun.
  all: injection Hrun as <- <-; cbn [trace app] in Hin |- *; in_trace Hin.
  all: injection Hin as <-.
  all: first
    [ match goal with
      | H : _ = Some (mkTemp ?d ?f) |- _ => exists (mkTemp d f)
      end;
      solve [spawn_arguments_leaf]
    | match goal with
      | |- exists temp, soffice_args _ _ ?d = _ /\ _ => exists (mkTemp d false)
      end;
      solve [spawn_arguments_leaf] ].
Qed.

Lemma convertFile_spawn_arguments_witness :
  let run := convertFile missing_output_env (DocBuffer [80; 75]%N) (js "docx")
                         (js "pdf") no_options idle_world in
  exists temp,
    soffice_args (js "pdf") (js "/dev/shm/doc-conv-a1B2c3/file.docx")
                 (js "/dev/shm/doc-conv-a1B2c3")
    = soffice_args (js "pdf") (input_of (DocBuffer [80; 75]%N) temp (js "docx"))
                   (tempDir temp).
Proof.
  intro run.
  destruct (@convertFile_spawn_arguments unit missing_output_env
              (DocBuffer [80; 75]%N) (js "docx") (js "pdf") no_options 0 [] tt
              (snd run) (fst run)
              (soffice_args (js "pdf") (js "/dev/shm/doc-conv-a1B2c3/file.docx")
                            (js "/dev/shm/doc-conv-a1B2c3"))
              (surjective_pairing _))
    as (temp & Hargs & _).
  - vm_compute. tauto.
  - exists temp. exact Hargs.
Defined.

(* ================================================================== *)
(** * The metrics registry *)
(* ================================================================== *)

Lemma jsstring_eqb_eq : forall a b, jsstring_eqb a b = true <-> a = b.
Proof.
  intros a b. unfold jsstring_eqb.
  destruct (list_eq_dec N.eq_dec a b); split; intro H;
    first [assumption | reflexivity | discriminate | contradiction].
Qed.

Lemma jsstring_eqb_neq : forall a b, jsstring_eqb a b = false <-> a <> b.
Proof.
  intros a b. unfold jsstring_eqb.
  destruct (list_eq_dec N.eq_dec a b); split; intro H;
    first [assumption | reflexivity | discriminate | contradiction].
Qed.

Section MapFacts.

Import Metrics.
Variable V : Type.

Lemma map_get_set_same : forall (k : jsstring) (v : V) m,
  map_get k (map_set k v m) = Some v.
Proof.
  intros k v m. induction m as [|[k' v'] r IH]; simpl.
  - now rewrite jsstring_eqb_refl.
  - destruct (jsstring_eqb k' k) eqn:Hk; simpl; rewrite Hk; [reflexivity | exact IH].
Qed.

Lemma map_get_set_other : forall (k k0 : jsstring) (v : V) m,
  k0 <> k -> map_get k0 (map_set k v m) = map_get k0 m.
Proof.
  intros k k0 v m Hne. induction m as [|[k' v'] r IH]; simpl.
  - destruct (jsstring_eqb k k0) eqn:Hk; [|reflexivity].
    apply jsstring_eqb_eq in Hk. now contradiction Hne.
  - destruct (jsstring_eqb k' k) eqn:Hk; simpl.
    + apply jsstring_eqb_eq in Hk. subst k'.
      destruct (jsstring_eqb k k0) eqn:Hk0; [|reflexivity].
      apply jsstring_eqb_eq in Hk0. now contradiction Hne.
    + now rewrite IH.
Qed.

Lemma map_get_In : forall (k : jsstring) (v : V) m,
  map_get k m = Some v -> In (k, v) m.
Proof.
  intros k v m. induction m as [|[k' v'] r IH]; simpl; [discriminate|].
  destruct (jsstring_eqb k' k) eqn:Hk.
  - apply jsstring_eqb_eq in Hk. intro H. injection H as <-. subst. now left.
  - intro H. right. now apply IH.
Qed.

Lemma In_map_set : forall (k k0 : jsstring) (v v0 : V) m,
  In (k0, v0) (map_set k v m) -> (k0 = k /\ v0 = v) \/ In (k0, v0) m.
Proof.
  intros k k0 v v0 m. induction m as [|[k' v'] r IH]; simpl.
  - intros [H|[]]. injection H as <- <-. now left.
  - destruct (jsstring_eqb k' k) eqn:Hk; simpl.
    + apply jsstring_eqb_eq in Hk. subst k'.
      intros [H|H]; [injection H as <- <-; now left | right; now right].
    + intros [H|H]; [right; now left|].
      destruct (IH H) as [?|?]; [now left | right; now right].
Qed.

End MapFacts.



Lemma total_sumZ : forall arr, Metrics.total arr = Metrics.sumZ arr.
Proof.
  intro arr. unfold Metrics.total.
  assert (H : forall l acc, fold_left Z.add l acc = acc + Metrics.sumZ l).
  { induction l as [|x l IH]; intro acc; simpl; [lia | rewrite IH; lia]. }
  rewrite H. lia.
Qed.

Lemma bump_length : forall i arr, List.length (Metrics.bump i arr) = List.length arr.
Proof.
  intros i arr. revert i. induction arr as [|a r IH]; intros [|i]; simpl;
    try reflexivity. now rewrite IH.
Qed.

Lemma bump_sum : forall i arr,
  (i < List.length arr)%nat ->
  Metrics.sumZ (Metrics.bump i arr) = Metrics.sumZ arr + 1.
Proof.
  intros i arr. revert i. induction arr as [|a r IH]; intros [|i] H; simpl in *;
    try lia. rewrite IH; lia.
Qed.

Lemma bump_nonneg : forall i arr,
  Forall (fun a => 0 <= a) arr -> Forall (fun a => 0 <= a) (Metrics.bump i arr).
Proof.
  intros i arr H. revert i.
  induction H as [|a r Ha Hr IH]; intros [|i]; simpl; constructor;
    first [lia | assumption | apply IH].
Qed.

Lemma last_cons_default : forall (l : list Z) x d, last (x :: l) d = last l x.
Proof.
  induction l as [|y l IH]; intros x d; [reflexivity|].
  change (last (x :: y :: l) d) with (last (y :: l) d).
  now rewrite !IH.
Qed.

Lemma cumulative_facts : forall arr c,
  Forall (fun a => 0 <= a) arr ->
  Metrics.non_decreasing (c :: Metrics.cumulative c arr)
  /\ last (Metrics.cumulative c arr) c = c + Metrics.sumZ arr
  /\ List.length (Metrics.cumulative c arr) = List.length arr.
Proof.
  intros arr c H. revert c.
  induction H as [|a r Ha Hr IH]; intro c.
  - simpl. split; [exact I|]. split; [lia | reflexivity].
  - destruct (IH (c + a)) as (Hnd & Hlast & Hlen).
    split; [|split].
    + change (Metrics.cumulative c (a :: r))
        with ((c + a) :: Metrics.cumulative (c + a) r).
      split; [lia | exact Hnd].
    + change (Metrics.cumulative c (a :: r))
        with ((c + a) :: Metrics.cumulative (c + a) r).
      rewrite last_cons_default, Hlast. simpl. lia.
    + simpl. now rewrite Hlen.
Qed.

Ltac unfold_call :=
  cbv beta iota zeta delta
    [Metrics.record_call Metrics.counterInc Metrics.gaugeSet Metrics.gaugeInc
     Metrics.gaugeDec Metrics.histogramObserve].

Ltac unfold_call_in H :=
  cbv beta iota zeta delta
    [Metrics.record_call Metrics.counterInc Metrics.gaugeSet Metrics.gaugeInc
     Metrics.gaugeDec Metrics.histogramObserve] in H.

Section RegistryFacts.

Import Metrics.

Variable num : Type.
Variable num_leb : num -> num -> bool.
Variable num_add : num -> num -> num.
Variable num_lit : Z -> Z -> num.
Variable num_falsy : num -> bool.
Variable stringify_sorted : list (jsstring * jsstring) -> jsstring.
Variable PUSH_URL : option jsstring.
Variable JOB_NAME : option jsstring.

Local Abbreviation key_of := (labelsKey stringify_sorted).
Local Abbreviation registry_after :=
  (after num_leb num_add num_lit num_falsy stringify_sorted PUSH_URL JOB_NAME).
Local Abbreviation record_one :=
  (record_call num_leb num_add num_lit num_falsy stringify_sorted PUSH_URL JOB_NAME).

Lemma after_snoc : forall calls c,
  registry_after (calls ++ [c]) = record_one (registry_after calls) c.
Proof. intros calls c. unfold after. now rewrite fold_left_app. Qed.

Lemma insert_sorted_length : forall x l,
  List.length (insert_sorted num_leb x l) = S (List.length l).
Proof.
  intros x l. induction l as [|y r IH]; simpl; [reflexivity|].
  destruct (num_leb x y); simpl; [reflexivity | now rewrite IH].
Qed.

Lemma sort_numbers_length : forall l,
  List.length (sort_numbers num_leb l) = List.length l.
Proof.
  induction l as [|x l IH]; simpl; [reflexivity|].
  now rewrite insert_sorted_length, IH.
Qed.

Lemma first_bucket_range : forall value bs i j,
  first_bucket num_leb value bs i = Some j -> (i <= j < i + List.length bs)%nat.
Proof.
  intros value bs. induction bs as [|b r IH]; intros i j; simpl; [discriminate|].
  destruct (num_leb value b).
  - intro H. injection H as <-. lia.
  - intro H. apply IH in H. lia.
Qed.

Hypothesis enabled : ENABLED PUSH_URL JOB_NAME = true.



(** Gauges: [value] changes in [set] alone. *)
Lemma gauges_unset_zero : forall calls name g,
  In (name, g) (gauges (registry_after calls)) ->
  existsb (@sets_gauge num name) calls = false ->
  g_value g = 0.
Proof.
  induction calls as [|c calls IH] using rev_ind; intros name g Hin Hset.
  - contradiction Hin.
  - rewrite after_snoc in Hin. rewrite existsb_app in Hset.
    apply orb_false_iff in Hset. destruct Hset as [Hset Hc].
    cbn [existsb] in Hc. rewrite orb_false_r in Hc.
    assert (Hold : g_value (get_or name (gauges (registry_after calls))
                                   new_Gauge) = 0).
    { unfold get_or.
      destruct (map_get name (gauges (registry_after calls))) as [g0|] eqn:Hg;
        [|reflexivity].
      apply map_get_In in Hg. now apply (IH name g0). }
    destruct c as [n v l|n v l|n d l|n d l|n x l];
      unfold_call_in Hin;
      rewrite enabled in Hin; cbn [negb gauges] in Hin;
      try (now apply (IH name g));
      apply In_map_set in Hin;
      (destruct Hin as [[-> ->]|Hin]; [|now apply (IH name g)]).
    + cbn [sets_gauge] in Hc. rewrite jsstring_eqb_refl in Hc. discriminate Hc.
    + cbn [Gauge_inc g_value]. exact Hold.
    + cbn [Gauge_dec g_value]. exact Hold.
Qed.



Lemma observations_snoc : forall name key (calls : list (call num)) (c : call num),
  observations stringify_sorted name key (calls ++ [c])
  = observations stringify_sorted name key calls
    + (if observes stringify_sorted name key c then 1 else 0).
Proof.
  intros name key calls c. unfold observations.
  rewrite filter_app, length_app. cbn [filter].
  destruct (observes stringify_sorted name key c); cbn [List.length]; lia.
Qed.

Lemma zero_cells : forall (bs : list num),
  List.length (map (fun _ => 0) bs) = List.length bs
  /\ Forall (fun a => 0 <= a) (map (fun _ : num => 0) bs)
  /\ sumZ (map (fun _ : num => 0) bs) = 0.
Proof.
  induction bs as [|b r (H1 & H2 & H3)]; simpl.
  - repeat split. constructor.
  - repeat split; [now rewrite H1 | constructor; [lia | exact H2] | rewrite H3; lia].
Qed.

Lemma observe_cells : forall value bs arr,
  List.length arr = List.length bs -> bs <> [] ->
  let arr' := match first_bucket num_leb value bs 0 with
              | Some i => bump i arr
              | None => bump (List.length arr - 1) arr
              end in
  List.length arr' = List.length arr
  /\ (Forall (fun a => 0 <= a) arr -> Forall (fun a => 0 <= a) arr')
  /\ sumZ arr' = sumZ arr + 1.
Proof.
  intros value bs arr Hlen Hne. cbv zeta.
  assert (Hpos : (0 < List.length bs)%nat)
    by (destruct bs; [now contradiction Hne | simpl; lia]).
  destruct (first_bucket num_leb value bs 0) as [i|] eqn:Hi.
  - apply first_bucket_range in Hi.
    split; [apply bump_length|]. split; [apply bump_nonneg|].
    apply bump_sum. lia.
  - split; [apply bump_length|]. split; [apply bump_nonneg|].
    apply bump_sum. lia.
Qed.

Lemma histograms_consistent_after : forall calls,
  histograms_consistent stringify_sorted calls (registry_after calls).
Proof.
  induction calls as [|c calls IH] using rev_ind.
  - intros name. simpl. intro key. reflexivity.
  - rewrite after_snoc. intro name. specialize (IH name).
    destruct c as [n v l|n v l|n d l|n d l|n x l];
      unfold_call;
      rewrite enabled; cbn [negb histograms].
    1-4: destruct (map_get name (histograms (registry_after calls))) as [h|];
      [ destruct IH as [Hb Hs]; split; [exact Hb|]; intro key;
        specialize (Hs key); rewrite observations_snoc; cbn [observes];
        rewrite Z.add_0_r; exact Hs
      | intro key; rewrite observations_snoc; cbn [observes];
        rewrite Z.add_0_r; apply IH ].
    destruct (jsstring_eqb n name) eqn:Hn.
    + apply jsstring_eqb_eq in Hn. subst n. rewrite map_get_set_same.
      set (h := get_or name (histograms (registry_after calls))
                       (new_Histogram num_leb (default_buckets num_lit))).
      assert (Hh : series_consistent stringify_sorted calls name h).
      { unfold h, get_or.
        destruct (map_get name (histograms (registry_after calls))) as [h0|];
          [exact IH|].
        split; [cbn [new_Histogram h_buckets]; now rewrite sort_numbers_length|].
        intro key. cbn [new_Histogram h_counts map_get]. apply IH. }
      clearbody h. destruct Hh as [Hb Hs].
      split; [exact Hb|]. intro key.
      rewrite observations_snoc. cbn [observes]. rewrite jsstring_eqb_refl.
      cbn [andb]. unfold Histogram_observe. cbn [h_counts].
      destruct (jsstring_eqb (key_of l) key) eqn:Hk.
      * apply jsstring_eqb_eq in Hk. subst key. rewrite map_get_set_same.
        specialize (Hs (key_of l)).
        assert (Hne : h_buckets h <> []).
        { intro Hnil. rewrite Hnil in Hb. discriminate Hb. }
        destruct (map_get (key_of l) (h_counts h)) as [arr|].
        -- destruct Hs as (Hlen & Hnn & Hsum).
           destruct (@observe_cells x (h_buckets h) arr) as (H1 & H2 & H3);
             [congruence | exact Hne |].
           split; [congruence|]. split; [now apply H2 | lia].
        -- destruct (zero_cells (h_buckets h)) as (Z1 & Z2 & Z3).
           destruct (@observe_cells x (h_buckets h) (map (fun _ => 0) (h_buckets h)))
             as (H1 & H2 & H3); [exact Z1 | exact Hne |].
           split; [congruence|]. split; [now apply H2 | lia].
      * apply jsstring_eqb_neq in Hk.
        rewrite map_get_set_other by (intro Heq; apply Hk; now symmetry).
        specialize (Hs key). rewrite Z.add_0_r. exact Hs.
    + apply jsstring_eqb_neq in Hn.
      rewrite map_get_set_other by (intro Heq; apply Hn; now symmetry).
      destruct (map_get name (histograms (registry_after calls))) as [h|].
      * destruct IH as [Hb Hs]. split; [exact Hb|]. intro key.
        rewrite observations_snoc. cbn [observes].
        replace (jsstring_eqb n name) with false
          by (symmetry; now apply jsstring_eqb_neq).
        cbn [andb]. rewrite Z.add_0_r. apply Hs.
      * intro key. rewrite observations_snoc. cbn [observes].
        replace (jsstring_eqb n name) with false
          by (symmetry; now apply jsstring_eqb_neq).
        cbn [andb]. rewrite Z.add_0_r. apply IH.
Qed.

Lemma bucket_lines_bound : forall name labels (bs : list num) cums i,
  (i + List.length cums <= List.length bs)%nat ->
  forallb (@has_bound num) (bucket_lines name labels bs i cums) = true.
Proof.
  intros name labels bs cums. induction cums as [|c r IH]; intros i Hi;
    [reflexivity|].
  cbn [bucket_lines forallb]. simpl in Hi.
  rewrite IH by lia. rewrite andb_true_r.
  destruct (nth_error bs i) eqn:Hn; [reflexivity|].
  apply nth_error_None in Hn. lia.
Qed.

End RegistryFacts.

Section ExpositionFacts.

Import Metrics.

Variable num : Type.

Lemma labelled_lines : forall V (mk : option jsstring -> V -> line num) m l,
  In l (labelled mk m) -> exists k v, l = mk (Some k) v.
Proof.
  intros V mk m l H. unfold labelled in H. apply in_flat_map in H.
  destruct H as [[k v] [_ H]]. cbn [fst snd] in H.
  destruct (jsstring_eqb k (js "{}")); [contradiction H|].
  destruct H as [<-|[]]. now exists k, v.
Qed.

Lemma counter_lines_no_gauge : forall m name labels v,
  ~ In (@GaugeValue num name labels v) (flat_map (@render_counter num) m).
Proof.
  intros m name labels v H. apply in_flat_map in H.
  destruct H as [[n c] [_ H]]. unfold render_counter in H.
  apply in_app_or in H. destruct H as [H|H].
  - cbn [In] in H. destruct H as [H|[H|[H|[]]]]; discriminate H.
  - apply labelled_lines in H. destruct H as (k & x & H). discriminate H.
Qed.

Lemma bucket_lines_no_gauge : forall n labels0 (bs : list num) cums i name labels v,
  ~ In (GaugeValue name labels v) (bucket_lines n labels0 bs i cums).
Proof.
  intros n labels0 bs cums. induction cums as [|c r IH]; intros i name labels v H.
  - contradiction H.
  - cbn [bucket_lines In] in H. destruct H as [H|H]; [discriminate H|].
    now apply IH in H.
Qed.

Lemma histogram_lines_no_gauge :
  forall num_falsy num_lit (m : jsmap (Histogram num)) name labels v,
    ~ In (GaugeValue name labels v)
         (flat_map (render_histogram num_lit num_falsy) m).
Proof.
  intros num_falsy num_lit m name labels v H. apply in_flat_map in H.
  destruct H as [[n h] [_ H]]. unfold render_histogram in H.
  apply in_app_or in H. destruct H as [H|H].
  - cbn [In] in H. destruct H as [H|[H|[]]]; discriminate H.
  - apply in_flat_map in H. destruct H as [[k arr] [_ H]].
    unfold render_series in H. apply in_app_or in H. destruct H as [H|H].
    + now apply bucket_lines_no_gauge in H.
    + cbn [In] in H. destruct H as [H|[H|[]]]; discriminate H.
Qed.

End ExpositionFacts.



(** X15: [gaugeInc] and [gaugeDec] never reach the exposition: a gauge that
    was never given a value by [gaugeSet] is rendered, on its line without
    labels, with the value 0, whatever was added to it or taken from it. *)
Theorem gauge_without_set_renders_zero :
  forall (num : Type) (num_leb : num -> num -> bool) (num_add : num -> num -> num)
         (num_lit : Z -> Z -> num) (num_falsy : num -> bool)
         (stringify_sorted : list (jsstring * jsstring) -> jsstring)
         (PUSH_URL JOB_NAME : option jsstring)
         (calls : list (Metrics.call num)) (name : jsstring) (now_ms v : Z),
    Metrics.ENABLED PUSH_URL JOB_NAME = true ->
    existsb (Metrics.sets_gauge name) calls = false ->
    In (Metrics.GaugeValue name None v)
       (Metrics.renderMetrics num_lit num_falsy PUSH_URL JOB_NAME now_ms
          (Metrics.after num_leb num_add num_lit num_falsy stringify_sorted
                         PUSH_URL JOB_NAME calls)) ->
    v = 0.
Proof.
  intros num num_leb num_add num_lit num_falsy stringify_sorted PUSH_URL JOB_NAME
         calls name now_ms v Hen Hset Hin.
  unfold Metrics.renderMetrics in Hin. rewrite Hen in Hin. cbn [negb] in Hin.
  unfold Metrics.renderMetricsInternal in Hin.
  apply in_app_or in Hin. destruct Hin as [Hin|Hin];
    [now apply counter_lines_no_gauge in Hin|].
  apply in_app_or in Hin. destruct Hin as [Hin|Hin].
  - apply in_flat_map in Hin. destruct Hin as [[n g] [Hg Hin]].
    unfold Metrics.render_gauge in Hin. apply in_app_or in Hin.
    destruct Hin as [Hin|Hin].
    + cbn [In] in Hin. destruct Hin as [Hin|[Hin|[Hin|[]]]]; try discriminate Hin.
      injection Hin as Hn Hv. subst n v.
      exact (@gauges_unset_zero num num_leb num_add num_lit num_falsy
               stringify_sorted PUSH_URL JOB_NAME Hen calls name g Hg Hset).
    + apply labelled_lines in Hin. destruct Hin as (k & x & Hin).
      discriminate Hin.
  - apply in_app_or in Hin. destruct Hin as [Hin|Hin];
      [now apply histogram_lines_no_gauge in Hin|].
    cbn [In] in Hin. destruct Hin as [Hin|[Hin|[Hin|[]]]]; discriminate Hin.
Qed.

Lemma gauge_without_set_renders_zero_witness :
  In (Metrics.GaugeValue (js "api_requests_in_flight") None 0)
     (Metrics.renderMetrics Metrics.millis (Z.eqb 0) Metrics.sample_push_url
        Metrics.sample_job 1700000000000
        (Metrics.after Z.leb Z.add Metrics.millis (Z.eqb 0) Metrics.plain_key
           Metrics.sample_push_url Metrics.sample_job
           (firstn 2 Metrics.sample_calls)))
  /\ 0 = 0.
Proof.
  assert (Hin : In (Metrics.GaugeValue (js "api_requests_in_flight") None 0)
     (Metrics.renderMetrics Metrics.millis (Z.eqb 0) Metrics.sample_push_url
        Metrics.sample_job 1700000000000
        (Metrics.after Z.leb Z.add Metrics.millis (Z.eqb 0) Metrics.plain_key
           Metrics.sample_push_url Metrics.sample_job
           (firstn 2 Metrics.sample_calls)))).
  { vm_compute. tauto. }
  split; [exact Hin|].
  exact (@gauge_without_set_renders_zero Z Z.leb Z.add Metrics.millis (Z.eqb 0)
           Metrics.plain_key Metrics.sample_push_url Metrics.sample_job
           (firstn 2 Metrics.sample_calls) (js "api_requests_in_flight")
           1700000000000 0 eq_refl eq_refl Hin).
Defined.

(** X16: with metrics enabled, every series of a histogram has one cell for
    each of the eleven default buckets, no cell is negative, and the cells
    add up to the number of observations recorded for the series. *)
Theorem histogram_cells_count_observations :
  forall (num : Type) (num_leb : num -> num -> bool) (num_add : num -> num -> num)
         (num_lit : Z -> Z -> num) (num_falsy : num -> bool)
         (stringify_sorted : list (jsstring * jsstring) -> jsstring)
         (PUSH_URL JOB_NAME : option jsstring)
         (calls : list (Metrics.call num)) (name key : jsstring)
         (h : Metrics.Histogram num) (arr : list Z),
    Metrics.ENABLED PUSH_URL JOB_NAME = true ->
    Metrics.map_get name
      (Metrics.histograms
         (Metrics.after num_leb num_add num_lit num_falsy stringify_sorted
                        PUSH_URL JOB_NAME calls)) = Some h ->
    Metrics.map_get key (Metrics.h_counts h) = Some arr ->
    List.length (Metrics.h_buckets h) = 11%nat
    /\ List.length arr = 11%nat
    /\ Forall (fun a => 0 <= a) arr
    /\ Metrics.total arr = Metrics.observations stringify_sorted name key calls.
Proof.
  intros num num_leb num_add num_lit num_falsy stringify_sorted PUSH_URL JOB_NAME
         calls name key h arr Hen Hh Harr.
  pose proof (@histograms_consistent_after num num_leb num_add num_lit num_falsy
                stringify_sorted PUSH_URL JOB_NAME Hen calls name) as H.
  rewrite Hh in H. destruct H as [Hb Hs]. specialize (Hs key).
  rewrite Harr in Hs. destruct Hs as (Hlen & Hnn & Hsum).
  rewrite total_sumZ. auto.
Qed.

Lemma histogram_cells_count_observations_witness :
  Metrics.total [0; 0; 0; 0; 0; 0; 1; 0; 0; 0; 1]
  = Metrics.observations Metrics.plain_key (js "conversion_duration_seconds")
      (js "{}") Metrics.sample_calls.
Proof.
  refine (proj2 (proj2 (proj2
    (@histogram_cells_count_observations Z Z.leb Z.add Metrics.millis (Z.eqb 0)
       Metrics.plain_key Metrics.sample_push_url Metrics.sample_job
       Metrics.sample_calls (js "conversion_duration_seconds") (js "{}")
       (Metrics.mkHistogram
          [5; 10; 50; 100; 500; 1000; 2500; 5000; 10000; 30000; 60000]
          [(js "{}", [0; 0; 0; 0; 0; 0; 1; 0; 0; 0; 1])]
          [(js "{}", 91500)])
       [0; 0; 0; 0; 0; 0; 1; 0; 0; 0; 1] eq_refl _ _)))).
  - vm_compute. reflexivity.
  - vm_compute. reflexivity.
Defined.

(** X17: in the exposition of a series the cumulative bucket counts do not
    decrease, each bucket line carries a bound, and the last bucket line
    carries the number of the [_count] line, which is the number of
    observations: a value above the largest bound is counted under it. *)
Theorem histogram_series_rendering :
  forall (num : Type) (num_leb : num -> num -> bool) (num_add : num -> num -> num)
         (num_lit : Z -> Z -> num) (num_falsy : num -> bool)
         (stringify_sorted : list (jsstring * jsstring) -> jsstring)
         (PUSH_URL JOB_NAME : option jsstring)
         (calls : list (Metrics.call num)) (name key : jsstring)
         (h : Metrics.Histogram num) (arr : list Z),
    Metrics.ENABLED PUSH_URL JOB_NAME = true ->
    Metrics.map_get name
      (Metrics.histograms
         (Metrics.after num_leb num_add num_lit num_falsy stringify_sorted
                        PUSH_URL JOB_NAME calls)) = Some h ->
    Metrics.map_get key (Metrics.h_counts h) = Some arr ->
    let cums := Metrics.cumulative 0 arr in
    let n := Metrics.observations stringify_sorted name key calls in
    Metrics.render_series num_lit num_falsy name h (key, arr)
    = Metrics.bucket_lines name (Metrics.series_labels key)
                           (Metrics.h_buckets h) 0 cums
      ++ [Metrics.HistogramSum name (Metrics.series_labels key)
            (Metrics.sum_or_zero num_lit num_falsy
               (Metrics.map_get key (Metrics.h_sums h)));
          Metrics.HistogramCount name (Metrics.series_labels key) n]
    /\ List.length cums = 11%nat
    /\ Metrics.non_decreasing cums
    /\ last cums 0 = n
    /\ forallb (@Metrics.has_bound num)
               (Metrics.render_series num_lit num_falsy name h (key, arr)) = true.
Proof.
  intros num num_leb num_add num_lit num_falsy stringify_sorted PUSH_URL JOB_NAME
         calls name key h arr Hen Hh Harr. cbv zeta.
  pose proof (@histograms_consistent_after num num_leb num_add num_lit num_falsy
                stringify_sorted PUSH_URL JOB_NAME Hen calls name) as H.
  rewrite Hh in H. destruct H as [Hb Hs]. specialize (Hs key).
  rewrite Harr in Hs. destruct Hs as (Hlen & Hnn & Hsum).
  destruct (@cumulative_facts arr 0 Hnn) as (Hnd & Hlast & Hclen).
  unfold Metrics.render_series.
  split; [rewrite total_sumZ, Hsum; reflexivity|].
  split; [congruence|].
  split.
  { destruct (Metrics.cumulative 0 arr) as [|c0 r]; [exact I|].
    cbn [Metrics.non_decreasing] in Hnd. tauto. }
  split; [rewrite Hlast; lia|].
  rewrite forallb_app, bucket_lines_bound by (rewrite Hclen; lia).
  reflexivity.
Qed.

Lemma histogram_series_rendering_witness :
  last (Metrics.cumulative 0 [0; 0; 0; 0; 0; 0; 1; 0; 0; 0; 1]) 0
  = Metrics.observations Metrics.plain_key (js "conversion_duration_seconds")
      (js "{}") Metrics.sample_calls.
Proof.
  refine (proj1 (proj2 (proj2 (proj2
    (@histogram_series_rendering Z Z.leb Z.add Metrics.millis (Z.eqb 0)
       Metrics.plain_key Metrics.sample_push_url Metrics.sample_job
       Metrics.sample_calls (js "conversion_duration_seconds") (js "{}")
       (Metrics.mkHistogram
          [5; 10; 50; 100; 500; 1000; 2500; 5000; 10000; 30000; 60000]
          [(js "{}", [0; 0; 0; 0; 0; 0; 1; 0; 0; 0; 1])]
          [(js "{}", 91500)])
       [0; 0; 0; 0; 0; 0; 1; 0; 0; 0; 1] eq_refl _ _))))).
  - vm_compute. reflexivity.
  - vm_compute. reflexivity.
Defined.

(** X18: metrics are recorded only when both [METRICS_PUSHGATEWAY_URL] and
    [METRICS_JOB_NAME] are set and not empty; otherwise every recording
    call leaves the registry empty and [renderMetrics] gives nothing. *)
Theorem metrics_disabled_without_configuration :
  forall (num : Type) (num_leb : num -> num -> bool) (num_add : num -> num -> num)
         (num_lit : Z -> Z -> num) (num_falsy : num -> bool)
         (stringify_sorted : list (jsstring * jsstring) -> jsstring)
         (PUSH_URL JOB_NAME : option jsstring)
         (calls : list (Metrics.call num)) (now_ms : Z),
    truthy PUSH_URL = None \/ truthy JOB_NAME = None ->
    Metrics.after num_leb num_add num_lit num_falsy stringify_sorted
                  PUSH_URL JOB_NAME calls
    = Metrics.empty_registry num
    /\ forall r, Metrics.renderMetrics num_lit num_falsy PUSH_URL JOB_NAME now_ms r = [].
Proof.
  intros num num_leb num_add num_lit num_falsy stringify_sorted PUSH_URL JOB_NAME
         calls now_ms Hcfg.
  assert (Hen : Metrics.ENABLED PUSH_URL JOB_NAME = false).
  { unfold Metrics.ENABLED.
    destruct Hcfg as [-> | ->]; [reflexivity|].
    destruct (truthy PUSH_URL); reflexivity. }
  split.
  - induction calls as [|c calls IH] using rev_ind; [reflexivity|].
    rewrite after_snoc, IH.
    destruct c; unfold_call; rewrite Hen; reflexivity.
  - intro r. unfold Metrics.renderMetrics. rewrite Hen. reflexivity.
Qed.

Lemma metrics_disabled_without_configuration_witness :
  Metrics.after Z.leb Z.add Metrics.millis (Z.eqb 0) Metrics.plain_key
                Metrics.sample_push_url (Some []) Metrics.sample_calls
  = Metrics.empty_registry Z.
Proof.
  apply (@metrics_disabled_without_configuration Z Z.leb Z.add Metrics.millis
           (Z.eqb 0) Metrics.plain_key Metrics.sample_push_url (Some [])
           Metrics.sample_calls 0).
  right. reflexivity.
Defined.

(* ================================================================== *)
(** * Further facts about every request *)
(* ================================================================== *)

Lemma count_mkdtemp_app : forall a b,
  count_mkdtemp (a ++ b) = (count_mkdtemp a + count_mkdtemp b)%nat.
Proof. intros a b. unfold count_mkdtemp. now rewrite filter_app, length_app. Qed.

Lemma filter_none : forall (f : event -> bool) l,
  (forall e, In e l -> f e = false) -> filter f l = [].
Proof.
  intros f l. induction l as [|e r IH]; intro H; [reflexivity|].
  cbn [filter]. rewrite (H e (or_introl eq_refl)).
  apply IH. intros e0 H0. apply H. now right.
Qed.

(** A slot segment holds the slot events and events of the child only. *)
Lemma held_segment_events : forall evs c0 c e,
  held_segment c0 evs = Some c -> In e evs ->
  is_child_event e = true \/ e = EvRelease.
Proof.
  induction evs as [|e0 r IH]; intros c0 c e H Hin; [discriminate H|].
  destruct Hin as [<-|Hin].
  - destruct e0; cbn in H; try discriminate H; auto.
  - destruct e0; cbn in H; try discriminate H;
      try (now apply (IH _ _ _ H Hin)).
    destruct r; [contradiction Hin | discriminate H].
Qed.

Lemma slot_segment_events : forall evs c e,
  slot_segment evs = Some c -> In e evs ->
  is_child_event e = true \/ is_slot_event e = true.
Proof.
  intros [|e0 r] c e H Hin; [discriminate H|].
  destruct e0; try discriminate H. cbn in H.
  destruct Hin as [<-|Hin]; [now right|].
  destruct (@held_segment_events _ _ _ _ H Hin) as [?| ->]; [now left | now right].
Qed.

Lemma slot_segment_no_mkdtemp : forall evs c,
  slot_segment evs = Some c -> count_mkdtemp evs = 0%nat.
Proof.
  intros evs c H. unfold count_mkdtemp.
  rewrite filter_none; [reflexivity|].
  intros e Hin.
  destruct (@slot_segment_events _ _ _ H Hin) as [He|He]; destruct e;
    try discriminate He; reflexivity.
Qed.

(** The conversion step in detail: what it starts the converter on, what
    it checks, and how it fails when no output is left. *)
Lemma run_conversion_details :
  forall (E : server_env) (temp : FileTemp) (inputPath from to : jsstring)
         (w : world handler_vars),
    let X := run_conversion E temp inputPath from to w in
    exists evs c,
      trace (snd X) = trace w ++ evs
      /\ slot_segment evs = Some c
      /\ live_dirs (snd X) = live_dirs w
      /\ (forall args, In (EvSpawn args) evs ->
            args = soffice_args (strip_dot to) inputPath (tempDir temp))
      /\ (forall code sig, In (EvChildClose code sig) evs ->
            output_accessible (sv_convert E) = false ->
            exists e, fst X = Throw e
                      /\ (err_message e = js "No output file produced"
                          \/ err_message e = timeout_message))
      /\ ((fst X = Ok tt
           /\ locals (snd X)
              = with_result (OutputPath (filePath temp ++ ch_dot :: strip_dot to))
                            (locals w)
           /\ c = true
           /\ In (EvAccess (filePath temp ++ ch_dot :: strip_dot to)) evs)
          \/ (exists e, fst X = Throw e /\ locals (snd X) = locals w)).
Proof.
  intros E temp inputPath from to [t dirs tr vars]. cbv zeta.
  exec_conversion.
  repeat (split_goal; exec_conversion);
    cbn [fst snd trace live_dirs locals];
    rewrite <- ?app_assoc; cbn [app];
    eexists _, _; (split; [reflexivity|]); (split; [reflexivity|]);
    (split; [reflexivity|]);
    (split;
     [ let Hin := fresh "Hin" in
       intros ? Hin; cbn [In] in Hin;
       repeat (destruct Hin as [Hin|Hin]; [try discriminate Hin|]);
       try contradiction Hin; try (injection Hin as <-; reflexivity) |]);
    (split;
     [ let Hin := fresh "Hin" in
       let Hacc := fresh "Hacc" in
       intros ? ? Hin Hacc; cbn [In] in Hin;
       repeat (destruct Hin as [Hin|Hin]; [try discriminate Hin|]);
       try contradiction Hin;
       first [ congruence
             | eexists; split; [reflexivity|]; cbn [err_message]; tauto ] |]);
    first [ left; split; [reflexivity|]; split; [reflexivity|];
            split; [reflexivity|]; cbn [In]; tauto
          | right; eexists; split; reflexivity ].
Qed.

Ltac deadline_facts :=
  repeat match goal with
  | H : timedOut_at _ _ _ = _ |- _ =>
    unfold timedOut_at in H; rewrite default_deadline in H
  end;
  z_facts.

(** The download into the workspace in detail: it succeeds only with the
    body written, and a response that is not OK makes it fail at once. *)
Lemma fetch_stage_details :
  forall (E : server_env) (url inputPath : jsstring) (w : world handler_vars),
    let X := withTimeout (fetch_and_stage E url inputPath)
                         (Some DEFAULT_TIMEOUT_MS) None w in
    live_dirs (snd X) = live_dirs w /\ locals (snd X) = locals w
    /\ exists evs,
         trace (snd X) = trace w ++ EvFetchGet url :: evs
         /\ (forall dt r, download_response E = (dt, Ok r) -> resp_ok r = false ->
               evs = []
               /\ exists e, fst X = Throw e
                  /\ (Z.max 0 dt < DEFAULT_TIMEOUT_MS ->
                      err_message e = fetch_not_ok r))
         /\ ((fst X = Ok tt /\ evs = [EvStageDownload inputPath])
             \/ (exists e, fst X = Throw e
                           /\ (evs = [] \/ evs = [EvStageDownload inputPath]))).
Proof.
  intros E url inputPath [t dirs tr vars]. cbv zeta.
  destruct (download_response E) as [dt0 r0] eqn:Hresp.
  exec_step. rewrite ?Hresp. exec_step.
  repeat (split_goal; exec_step); cbn [fst snd trace live_dirs locals now];
    rewrite <- ?app_assoc; cbn [app];
    (split; [reflexivity|]); (split; [reflexivity|]);
    eexists; (split; [reflexivity|]);
    (split;
     [ let Heq := fresh "Heq" in
       let Hok := fresh "Hok" in
       let Hle := fresh "Hle" in
       intros ? ? Heq Hok; injection Heq as <- Heq;
       first [ discriminate Heq
             | try (injection Heq as Heq); subst; first
                 [ congruence
                 | split; [reflexivity|]; eexists; split; [reflexivity|];
                   intro Hle;
                   first [ reflexivity
                         | exfalso; deadline_facts; lia ] ] ] |]);
    first [ left; split; [destruct v; reflexivity | reflexivity]
          | left; split; reflexivity
          | right; eexists; split; [reflexivity|];
            first [left; reflexivity | right; reflexivity] ].
Qed.

Ltac use_details :=
  match goal with
  | |- context [new_FileTemp ?T ?w] =>
    let H := fresh "Hnew" in
    pose proof (new_FileTemp_summary T w) as H; cbv zeta in H;
    destruct (new_FileTemp T w) as [? [? ? ? ?]];
    cbn [fst snd trace live_dirs locals now] in H;
    destruct H as (-> & -> & [(? & -> & ? & -> & ->) | (? & -> & -> & ->)])
  | |- context [run_conversion ?E ?t ?p ?f ?to ?w] =>
    let H := fresh "Hconv" in
    pose proof (run_conversion_details E t p f to w) as H; cbv zeta in H;
    destruct (run_conversion E t p f to w) as [? [? ? ? ?]];
    cbn [fst snd trace live_dirs locals now] in H;
    destruct H as (? & ? & -> & ? & -> & ? & ?
                   & [(-> & -> & -> & ?) | (? & -> & ->)])
  | |- context [upload_in_temp ?E ?o ?u ?to ?w] =>
    let H := fresh "Hup" in
    pose proof (upload_in_temp_summary E o u to w) as H; cbv zeta in H;
    destruct (upload_in_temp E o u to w) as [? [? ? ? ?]];
    cbn [fst snd trace live_dirs locals now] in H;
    destruct H as (-> & -> & [(? & ? & -> & -> & [-> | (? & ? & ? & -> & ?)])
                             | (? & ? & ? & ? & ? & -> & -> & ?)])
  | |- context [withTimeout (fetch_and_stage ?E ?u ?p) ?ms ?ps ?w] =>
    let H := fresh "Hfetch" in
    pose proof (fetch_stage_details E u p w) as H; cbv zeta in H;
    destruct (withTimeout (fetch_and_stage E u p) ms ps w) as [? [? ? ? ?]];
    cbn [fst snd trace live_dirs locals now] in H;
    destruct H as (-> & -> & ? & -> & ?
                   & [(-> & ->) | (? & -> & [-> | ->])])
  end.

(** An event that is neither of the child nor of the slot is not in a slot
    segment. *)
Ltac not_in_segment H :=
  match goal with
  | Hev : forall e, In e ?evs -> _ |- _ =>
    match type of H with
    | In _ evs =>
      let H' := fresh in
      pose proof (Hev _ H) as H'; cbn in H';
      destruct H' as [H'|H']; discriminate H'
    end
  end.

Ltac in_cases H tac :=
  lazymatch type of H with
  | _ \/ _ => destruct H as [H|H]; [in_cases H tac | in_cases H tac]
  | In _ (_ ++ _) => apply in_app_or in H; in_cases H tac
  | In _ (_ :: _) => cbn [In] in H; in_cases H tac
  | In _ [] => contradiction H
  | False => contradiction H
  | _ = _ => first [discriminate H | tac H]
  | In _ _ => first [not_in_segment H | tac H]
  end.

Ltac segment_facts :=
  repeat match goal with
  | H : slot_segment ?evs = Some _ |- _ =>
    let Hn := fresh "Hcount" in
    let Hev := fresh "Hev" in
    pose proof (@slot_segment_no_mkdtemp _ _ H) as Hn;
    unfold count_mkdtemp in Hn;
    pose proof (fun (e : event) (Hin : In e evs) =>
                  @slot_segment_events evs _ e H Hin) as Hev;
    clear H
  end.

Ltac reply_part :=
  eexists; split; [reflexivity|];
  first [ left; reflexivity
        | right; eexists _, _; split; [eassumption | reflexivity] ].

Ltac body_of H :=
  cbv beta iota delta [resp_body badRequest jsonError not_found forwarded] in H.

Ltac rejection_part :=
  let Hr := fresh "Hr" in
  let Hb := fresh "Hb" in
  intros ? ? Hr Hb; injection Hr as <-; body_of Hb;
  first [ discriminate Hb | split; reflexivity ].

Ltac front tr :=
  lazymatch tr with
  | ?a :: ?r => let f := front r in constr:(a :: f)
  | ?x ++ [_; _] => constr:(x)
  end.

Ltac stream_part :=
  let Hr := fresh "Hr" in
  let Hb := fresh "Hb" in
  let Hrm := fresh "Hrm" in
  intros ? ? Hr Hb; injection Hr as <-; body_of Hb;
  first
    [ discriminate Hb
    | injection Hb as <-;
      split; [assumption|]; split; [reflexivity|];
      match goal with
      | |- exists pre dir, ?tr = _ /\ _ =>
        let f := front tr in exists f; eexists; split; [reflexivity|]
      end;
      split; [cbn [In]; auto 12|];
      split; [cbn [In]; auto 12|];
      intro Hrm;
      first [ congruence
            | cbn [filter]; rewrite jsstring_eqb_refl; reflexivity ] ].

Ltac workspace_part :=
  split;
  [ unfold count_mkdtemp; cbn [filter];
    rewrite ?filter_app; cbn [filter];
    rewrite ?app_nil_r, ?length_app; cbn [filter List.length];
    repeat match goal with
    | H : List.length (filter _ _) = 0%nat |- _ => rewrite H
    end;
    cbn [List.length Nat.add]; lia
  | let Hin := fresh "Hin" in
    intros ? Hin;
    in_cases Hin ltac:(fun H => injection H as <-; cbn [In]; auto 12) ].

Ltac spawn_part :=
  let Hin := fresh "Hin" in
  intros ? Hin;
  in_cases Hin ltac:(fun H =>
    match goal with
    | Hs : forall a, In (EvSpawn a) ?evs -> _ |- _ => apply Hs in H
    end;
    subst; unfold filePath; eexists _, _, _;
    split; [reflexivity|];
    split; cbn [In]; auto 12).

Ltac download_part :=
  let Hin := fresh "Hin" in
  let Hresp := fresh "Hresp" in
  let Hok := fresh "Hok" in
  let Hnil := fresh "Hnil" in
  let He := fresh "He" in
  let Hd := fresh "Hd" in
  intros ? ? ? Hin Hresp Hok;
  first
    [ match goal with
      | Hf : forall dt r, download_response _ = _ -> _ |- _ =>
        destruct (Hf _ _ Hresp Hok) as (Hnil & ? & He & Hd)
      end;
      first
        [ discriminate He
        | discriminate Hnil
        | injection He as <-;
          split; [reflexivity|];
          eexists; split; [reflexivity | exact Hd] ]
    | solve [in_cases Hin ltac:(fun H => fail)] ].

Ltac branch_known :=
  unfold branch_error, is_multipart;
  repeat match goal with
  | H : truthy (req_contentType _) = _ |- _ => rewrite H
  end;
  repeat match goal with
  | H : includes ?a ?b = _ |- context [includes ?a ?b] => rewrite H
  end.

Ltac no_output_part :=
  let Hin := fresh "Hin" in
  let Hacc := fresh "Hacc" in
  let He := fresh "He" in
  let Hm := fresh "Hm" in
  intros ? ? Hin Hacc;
  in_cases Hin ltac:(fun H =>
    match goal with
    | Hc : forall code sig, In (EvChildClose code sig) ?evs -> _ |- _ =>
      destruct (Hc _ _ H Hacc) as (? & He & Hm)
    end;
    first
      [ discriminate He
      | injection He as <-; branch_known;
        destruct Hm as [Hm|Hm]; rewrite Hm; [left|right]; reflexivity ]).

Ltac facts_leaf :=
  segment_facts;
  constructor; cbn [fst snd trace live_dirs locals];
  [ reply_part | rejection_part | stream_part | workspace_part
  | spawn_part | download_part | no_output_part ].

Lemma request_facts_hold :
  forall (E : server_env) (req : request),
    request_facts E req (run_request E req).
Proof.
  intros E req. exec_handler.
  repeat (first [ use_details | known_fact | split_goal ]; exec_handler).
  all: try discriminate.
  all: cbn [fst snd trace live_dirs locals]; rewrite <- ?app_assoc; cbn [app].
  all: solve [facts_leaf].
Qed.

(** X19: every request is answered: the handler lets no error escape, and
    the status of its reply is 200, 400, 404 or 500, unless the reply
    forwards what the upload target answered. *)
Theorem handler_always_answers :
  forall (E : server_env) (req : request),
    exists resp,
      fst (run_request E req) = Ok resp
      /\ (own_status (status resp) = true
          \/ exists dt up, put_response E = (dt, Ok up) /\ resp = forwarded up).
Proof. intros E req. exact (fact_reply (request_facts_hold E req)). Qed.

(** X20: a rejection that carries no details (a missing or malformed field,
    an unsupported content type, no output mode in a multipart request) is
    a 400 given before any effect: no workspace made, nothing fetched. *)
Theorem rejection_before_any_effect :
  forall (E : server_env) (req : request) (resp : response) (m : jsstring),
    fst (run_request E req) = Ok resp ->
    resp_body resp = BodyJsonError m None ->
    status resp = 400 /\ trace (snd (run_request E req)) = [].
Proof. intros E req. exact (fact_rejection (request_facts_hold E req)). Qed.

Lemma rejection_before_any_effect_witness :
  status (badRequest (js "Invalid JSON body")) = 400
  /\ trace (snd (run_request (sample_env 200 200) invalid_json_request)) = [].
Proof.
  apply (@rejection_before_any_effect (sample_env 200 200) invalid_json_request
           (badRequest (js "Invalid JSON body")) (js "Invalid JSON body")).
  - vm_compute. reflexivity.
  - reflexivity.
Defined.

(** X21: a reply that streams the converted file is a 200 to a request with
    [?download]; the file streamed is the one whose presence was checked
    after the conversion, and the workspace is removed as the last effect,
    after the file was opened. *)
Theorem streamed_reply_removes_workspace_last :
  forall (E : server_env) (req : request) (resp : response) (p : jsstring),
    fst (run_request E req) = Ok resp ->
    resp_body resp = BodyFile p ->
    req_has_download req = true /\ status resp = 200
    /\ exists pre dir,
         trace (snd (run_request E req)) = pre ++ [EvOpenOutput p; EvRm dir]
         /\ In (EvMkdtemp dir) pre /\ In (EvAccess p) pre
         /\ (rm_succeeds (sv_temp E) = true ->
             live_dirs (snd (run_request E req)) = []).
Proof. intros E req. exact (fact_stream (request_facts_hold E req)). Qed.

Lemma streamed_reply_removes_workspace_last_witness :
  req_has_download (multipart_request true None) = true /\ 200 = 200
  /\ exists pre dir,
       trace (snd (run_request (sample_env 200 200) (multipart_request true None)))
       = pre ++ [EvOpenOutput sample_output; EvRm dir]
       /\ In (EvMkdtemp dir) pre /\ In (EvAccess sample_output) pre
       /\ (rm_succeeds (sv_temp (sample_env 200 200)) = true ->
           live_dirs (snd (run_request (sample_env 200 200)
                             (multipart_request true None))) = []).
Proof.
  apply (@streamed_reply_removes_workspace_last (sample_env 200 200)
           (multipart_request true None)
           (mkResponse 200
              [(js "Content-Type", js "application/pdf");
               (js "Content-Disposition", sample_disposition)]
              (BodyFile sample_output))
           sample_output).
  - vm_compute. reflexivity.
  - reflexivity.
Defined.

(** X22: a request makes one workspace directory at most, and every [rm]
    it issues is of that directory. *)
Theorem one_workspace_per_request :
  forall (E : server_env) (req : request),
    (count_mkdtemp (trace (snd (run_request E req))) <= 1)%nat
    /\ forall d, In (EvRm d) (trace (snd (run_request E req))) ->
                 In (EvMkdtemp d) (trace (snd (run_request E req))).
Proof. intros E req. exact (fact_workspace (request_facts_hold E req)). Qed.

(** X23: whenever the handler starts the converter, it starts it on the
    file [file.<from>] it staged in the workspace of the request (the upload
    or the download), with that workspace as the output directory. *)
Theorem converter_runs_on_staged_file :
  forall (E : server_env) (req : request) (args : list jsstring),
    In (EvSpawn args) (trace (snd (run_request E req))) ->
    exists dir from to,
      args = soffice_args to (join dir (js "file") ++ ch_dot :: from) dir
      /\ In (EvMkdtemp dir) (trace (snd (run_request E req)))
      /\ (In (EvStageUpload (join dir (js "file") ++ ch_dot :: from))
             (trace (snd (run_request E req)))
          \/ In (EvStageDownload (join dir (js "file") ++ ch_dot :: from))
                (trace (snd (run_request E req)))).
Proof. intros E req. exact (fact_spawn (request_facts_hold E req)). Qed.

Lemma converter_runs_on_staged_file_witness :
  exists dir from to,
    soffice_args (js "pdf") sample_input sample_dir
    = soffice_args to (join dir (js "file") ++ ch_dot :: from) dir
    /\ In (EvMkdtemp dir)
          (trace (snd (run_request (sample_env 200 200)
                         (json_request true None))))
    /\ (In (EvStageUpload (join dir (js "file") ++ ch_dot :: from))
           (trace (snd (run_request (sample_env 200 200)
                          (json_request true None))))
        \/ In (EvStageDownload (join dir (js "file") ++ ch_dot :: from))
              (trace (snd (run_request (sample_env 200 200)
                             (json_request true None))))).
Proof.
  apply (@converter_runs_on_staged_file (sample_env 200 200)
           (json_request true None)
           (soffice_args (js "pdf") sample_input sample_dir)).
  vm_compute. tauto.
Defined.

(** X24: when the download is answered with a status that is not OK, the
    request is answered 400 under [Failed to fetch/stream downloadUrl] and
    no slot is taken, so the converter is not started; answered before the
    deadline, the details are [FETCH_NOT_OK:<status>:<statusText>]. *)
Theorem refused_download_is_bad_request :
  forall (E : server_env) (req : request) (url : jsstring) (dt : Z)
         (r : fetch_response),
    In (EvFetchGet url) (trace (snd (run_request E req))) ->
    download_response E = (dt, Ok r) ->
    resp_ok r = false ->
    existsb is_slot_event (trace (snd (run_request E req))) = false
    /\ exists details,
         fst (run_request E req) = Ok (jsonError 400 download_label details)
         /\ (Z.max 0 dt < DEFAULT_TIMEOUT_MS -> details = fetch_not_ok r).
Proof. intros E req. exact (fact_download (request_facts_hold E req)). Qed.

Lemma refused_download_is_bad_request_witness :
  existsb is_slot_event
    (trace (snd (run_request (sample_env 404 200) (json_request true None))))
  = false
  /\ exists details,
       fst (run_request (sample_env 404 200) (json_request true None))
       = Ok (jsonError 400 download_label details)
       /\ (Z.max 0 30 < DEFAULT_TIMEOUT_MS ->
           details = fetch_not_ok (mkFetched 404 (js "Not Found") true)).
Proof.
  apply (@refused_download_is_bad_request (sample_env 404 200)
           (json_request true None) sample_url 30
           (mkFetched 404 (js "Not Found") true)).
  - vm_compute. tauto.
  - reflexivity.
  - reflexivity.
Defined.



(** X26: a request that is not a POST to [/process] (a GET of [/metrics]
    included) is answered [404 Not Found] without any effect. *)
Theorem other_routes_not_found :
  forall (E : server_env) (req : request),
    req_method req <> js "POST" \/ req_pathname req <> js "/process" ->
    run_request E req = (Ok not_found, initial_world).
Proof.
  intros E req Hroute.
  assert (Hother : negb (jsstring_eqb (req_method req) (js "POST"))
                   || negb (jsstring_eqb (req_pathname req) (js "/process"))
                   = true).
  { apply orb_true_iff.
    destruct Hroute as [H|H]; [left|right];
      apply negb_true_iff, jsstring_eqb_neq; exact H. }
  unfold run_request, serve, handler, try_catch, bind.
  destruct (jsstring_eqb (req_method req) (js "GET")
            && jsstring_eqb (req_pathname req) (js "/metrics"));
    [reflexivity|].
  rewrite Hother. reflexivity.
Qed.

Lemma other_routes_not_found_witness :
  run_request (sample_env 200 200)
    (mkRequest (js "GET") (js "/process") false None None
               (Throw (Error (js "no body"))) JsonSyntaxError)
  = (Ok not_found, initial_world).
Proof.
  apply other_routes_not_found.
  left. discriminate.
Defined.

(* ================================================================== *)
(** * The extension of the attachment *)
(* ================================================================== *)

Lemma take_segment_rev_free : forall r,
  Forall (fun c => c <> ch_slash) r -> take_segment_rev r = r.
Proof.
  intros r H. induction H as [|c r Hc _ IH]; [reflexivity|]. simpl.
  destruct (c =? ch_slash)%N eqn:Hs.
  - apply N.eqb_eq in Hs. now contradiction Hc.
  - now rewrite IH.
Qed.

Lemma drop_trailing_slashes_rev_free : forall r,
  Forall (fun c => c <> ch_slash) r -> drop_trailing_slashes_rev r = r.
Proof.
  intros [|c r] H; [reflexivity|]. simpl.
  destruct (c =? ch_slash)%N eqn:Hs; [|reflexivity].
  apply N.eqb_eq in Hs. inversion H as [|? ? Hc _]. now contradiction Hc.
Qed.

Lemma last_segment_free : forall p,
  Forall (fun c => c <> ch_slash) p -> last_segment p = p.
Proof.
  intros p H. unfold last_segment.
  assert (Hr : Forall (fun c => c <> ch_slash) (rev p)) by now apply Forall_rev.
  rewrite (drop_trailing_slashes_rev_free Hr), (take_segment_rev_free Hr).
  apply rev_involutive.
Qed.

Lemma ext_rev_app : forall l rest acc,
  Forall (fun c => c <> ch_dot) l ->
  ext_rev (l ++ rest) acc = ext_rev rest (rev l ++ acc).
Proof.
  intros l rest acc H. revert acc.
  induction H as [|c l Hc _ IH]; intro acc; [reflexivity|].
  cbn [app ext_rev].
  destruct (c =? ch_dot)%N eqn:Hd.
  - apply N.eqb_eq in Hd. now contradiction Hc.
  - rewrite IH. cbn [rev]. now rewrite <- app_assoc.
Qed.

Lemma starts_with_app : forall a r, starts_with a (a ++ r) = true.
Proof.
  induction a as [|c a IH]; intro r; [reflexivity|].
  cbn [app starts_with]. now rewrite N.eqb_refl, IH.
Qed.

Lemma firstn_exact : forall (a b : jsstring), firstn (List.length a) (a ++ b) = a.
Proof.
  intros a b. induction a as [|c a IH]; [reflexivity|].
  cbn [List.length app firstn]. now rewrite IH.
Qed.

(** X27: the extension of the original name is replaced by the target
    extension: for an original name [<stem>.<e>] without a directory part,
    the attachment is named by the sanitized [<stem>] followed by [.] and the
    target extension (without its leading dot), or by the sanitized [<stem>]
    alone when the target extension is empty. *)
Theorem attachment_replaces_extension :
  forall (stem e ext : jsstring) (maxBaseLength : nat),
    stem <> [] -> e <> [] ->
    Forall (fun c => c <> ch_slash) stem ->
    Forall (fun c => c <> ch_dot /\ c <> ch_slash) e ->
    attachment_filename path_basename path_extname (stem ++ ch_dot :: e) ext
                        maxBaseLength
    = if falsy (clean_ext ext)
      then sanitizeFilename path_basename stem maxBaseLength
      else sanitizeFilename path_basename stem maxBaseLength
           ++ ch_dot :: clean_ext ext.
Proof.
  intros stem e ext n Hstem He Hs Hde.
  assert (Hp : Forall (fun c => c <> ch_slash) (stem ++ ch_dot :: e)).
  { apply Forall_app. split; [exact Hs|].
    constructor; [discriminate|].
    eapply Forall_impl; [|exact Hde]. intros c [_ H]. exact H. }
  assert (Hext : path_extname (stem ++ ch_dot :: e) = ch_dot :: e).
  { unfold path_extname. rewrite (last_segment_free Hp).
    destruct (jsstring_eqb (stem ++ ch_dot :: e) [ch_dot; ch_dot]) eqn:Heq.
    { apply jsstring_eqb_eq in Heq. apply (f_equal (@List.length _)) in Heq.
      rewrite length_app in Heq. cbn [List.length] in Heq.
      destruct stem; [now contradiction Hstem|].
      destruct e; [now contradiction He|]. cbn [List.length] in Heq. lia. }
    rewrite rev_app_distr. cbn [rev]. rewrite <- app_assoc. cbn [app].
    rewrite ext_rev_app.
    2:{ apply Forall_rev. eapply Forall_impl; [|exact Hde].
        intros c [H _]. exact H. }
    rewrite rev_involutive, app_nil_r. cbn [ext_rev].
    rewrite N.eqb_refl.
    destruct (rev stem) eqn:Hr; [|reflexivity].
    apply (f_equal (@rev _)) in Hr. rewrite rev_involutive in Hr.
    now contradiction Hstem. }
  assert (Hbase : path_basename (stem ++ ch_dot :: e) (Some (ch_dot :: e)) = stem).
  { unfold path_basename. rewrite (last_segment_free Hp). cbn [falsy].
    destruct (jsstring_eqb (ch_dot :: e) (stem ++ ch_dot :: e)) eqn:Heq.
    { apply jsstring_eqb_eq in Heq. apply (f_equal (@List.length _)) in Heq.
      rewrite length_app in Heq. cbn [List.length] in Heq.
      destruct stem; [now contradiction Hstem | cbn [List.length] in Heq; lia]. }
    assert (Hends : ends_with (stem ++ ch_dot :: e) (ch_dot :: e) = true).
    { unfold ends_with. rewrite (rev_app_distr stem). apply starts_with_app. }
    assert (Hlen : (List.length (ch_dot :: e)
                    <? List.length (stem ++ ch_dot :: e))%nat = true).
    { apply Nat.ltb_lt. rewrite length_app.
      destruct stem; [now contradiction Hstem | cbn [List.length]; lia]. }
    rewrite Hends, Hlen. cbn [andb].
    replace (List.length (stem ++ ch_dot :: e) - List.length (ch_dot :: e))%nat
      with (List.length stem) by (rewrite length_app; lia).
    apply firstn_exact. }
  unfold attachment_filename. rewrite Hext. cbn [falsy]. rewrite Hbase.
  reflexivity.
Qed.

Lemma attachment_replaces_extension_witness :
  attachment_filename path_basename path_extname (js "annual report.docx")
                      (js ".pdf") 100
  = js "annual report.pdf".
Proof.
  apply (@attachment_replaces_extension (js "annual report") (js "docx")
           (js ".pdf") 100).
  - discriminate.
  - discriminate.
  - repeat constructor; discriminate.
  - repeat constructor; discriminate.
Defined.
